(** * Terminal web application: client-side session engine

    Shallow embedding of the terminal page component
    ([applications/terminal/frontend/app/page.tsx], first version in the
    concatenated source) and of the pieces of the backend that the
    README documents.

    Strings are modelled with [String.string]: a JavaScript string is a
    sequence of UTF-16 code units; the model covers strings whose code
    units all lie below 256 (one [ascii] per code unit).  Times are
    ECMAScript time values: integers counting milliseconds since the epoch. *)

From Stdlib Require Import String Ascii List ZArith Lia Bool.
Import ListNotations.

Open Scope string_scope.

(** ** JavaScript string primitives *)

(** ECMAScript [WhiteSpace] and [LineTerminator] code units below 256:
    TAB, LF, VT, FF, CR, SPACE and NO-BREAK SPACE. *)
Definition is_js_space (c : ascii) : bool :=
  let n := nat_of_ascii c in
  ((9 <=? n)%nat && (n <=? 13)%nat) || (n =? 32)%nat || (n =? 160)%nat.

Fixpoint trim_start (s : string) : string :=
  match s with
  | EmptyString => EmptyString
  | String c r => if is_js_space c then trim_start r else s
  end.

Fixpoint trim_end (s : string) : string :=
  match s with
  | EmptyString => EmptyString
  | String c r =>
      let r' := trim_end r in
      if String.eqb r' "" && is_js_space c then "" else String c r'
  end.

(** [String.prototype.trim] *)
Definition js_trim (s : string) : string := trim_end (trim_start s).

(** [String.prototype.startsWith] *)
Definition starts_with (p s : string) : bool := String.prefix p s.

(** [String.prototype.substring(n)] (one argument: up to the end) *)
Fixpoint substring_from (n : nat) (s : string) : string :=
  match n, s with
  | O, _ => s
  | S _, EmptyString => EmptyString
  | S n', String _ r => substring_from n' r
  end.

(** [Array.prototype.join] *)
Fixpoint join (sep : string) (l : list string) : string :=
  match l with
  | [] => ""
  | [x] => x
  | x :: r => x ++ sep ++ join sep r
  end.

Definition newline : string := String (ascii_of_nat 10) EmptyString.

(** [a || b] on a string-or-null value [a] and a string [b]:
    [null], [undefined] and the empty string are falsy. *)
Definition js_or (a : option string) (b : string) : string :=
  match a with
  | Some s => if String.eqb s "" then b else s
  | None => b
  end.

(** [a || b] where both operands may be null or undefined. *)
Definition js_or_opt (a b : option string) : option string :=
  match a with
  | Some s => if String.eqb s "" then b else a
  | None => b
  end.

(** Decimal digits of [n], exactly [k] of them (the low [k] digits). *)
Fixpoint pad_dec (k : nat) (n : Z) : string :=
  match k with
  | O => ""
  | S k' =>
      pad_dec k' (n / 10)%Z
        ++ String (ascii_of_nat (48 + Z.to_nat (n mod 10))) EmptyString
  end.

Fixpoint num_digits_fuel (fuel : nat) (n : Z) : nat :=
  match fuel with
  | O => 1
  | S f => if (n <? 10)%Z then 1 else S (num_digits_fuel f (n / 10)%Z)
  end.

(** [String(n)] for a non-negative integer [n]. *)
Definition dec (n : Z) : string :=
  pad_dec (num_digits_fuel (Z.to_nat (Z.log2 (Z.max n 1)) + 1) n) n.

(** ** Constants of the page *)

Definition NEOFETCH_OUTPUT : string := "                    
                 ----                         web-user@terminal
        ===      ====      ===                ---------------
       ====      ====      ====               OS: Kubernetes 
        ====     ====     ====                Host: Terminal Web App
        +++++    ++++    +++++                Kernel: Next.js 14
+++      ++++    ++++    ++++      +++        Uptime: Just started
+++++     ++++   ++++   ++++     +++++        Packages: npm + pip
 +++++*   ++++   ++++   ++++   *+++++         Shell: web-terminal
   *****  *****  ****  *****  *****           Resolution: Browser
    *****  ****  ****  ****  *****            DE: Web Browser
     ****  ****  ****  ****  ****             WM: Not applicable
      ***  ****  ****  ****  ***              Theme: Dark
     ****  ****  ****  ****  ****             Icons: Terminal
    *****  ****  ****  ****  *****            Font: Courier New
   ****#  #****  ****  *****  #****#          CPU: Browser Engine
 #***##   #***   ***#   #***   ##***#         GPU: WebGL
#####     ####   ####   ####     #####        Memory: Dynamic
###      ####    ####    ####      ###                 
        #####    ####    #####                         
        ####     ####     ####                         
       ####      ####      ####                        
        ###      ####      ###                         
                 ####                                  
                                
Welcome to the Terminal
".

Definition HELP_TEXT : string := "Available commands:
  help               - Show this help message
  clear              - Clear the terminal
  date               - Show current date and time
  whoami             - Show current user
  echo <text>        - Echo text back
  ls                 - List files (simulated)
  pwd                - Print working directory
  history            - Show command history
  neofetch           - Display system information
  about              - Show information about this terminal
  weather [location] - Fetch weather information for a location
  exit               - Exit the terminal (reloads page)

Type a command and press Enter to execute.".

Definition LS_OUTPUT : string :=
  "bin  boot  dev  etc  home  lib  media  mnt  opt  proc  root  run  sbin  srv  sys  tmp  usr  var".

Definition about_text (backend_version : option string) : string :=
  "Terminal Web Application" ++ newline ++
  "Built with Next.js, FastAPI, and PostgreSQL" ++ newline ++
  "Running on Kubernetes with ArgoCD" ++ newline ++
  "Version: " ++
  match backend_version with
  | Some v => v
  | None => "unknown (backend version not available)"
  end.

(** ** Data model *)

(** [interface CommandHistory]; [timestamp] is the time value of the [Date]. *)
Record entry := mk_entry {
  command : string;
  output : string;
  timestamp : Z
}.

(** [history.filter((h) => h.command).map((h) => h.command)] *)
Definition commands (history : list entry) : list string :=
  map command (filter (fun h => negb (String.eqb (command h) "")) history).

Fixpoint numbered_lines (i : Z) (cs : list string) : list string :=
  match cs with
  | [] => []
  | c :: r => (dec (i + 1) ++ "  " ++ c) :: numbered_lines (i + 1)%Z r
  end.

(** Output of the local [history] command. *)
Definition history_output (history : list entry) : string :=
  let j := join newline (numbered_lines 0 (commands history)) in
  if String.eqb j "" then "No history" else j.

(** What the synchronous part of [executeCommand] does before its
    first [await]. *)
Inductive outcome :=
| Append (command output : string)  (* setHistory((prev) => [...prev, {command, output, timestamp: new Date()}]) *)
| ClearHistory                      (* setHistory([]); setDisplayStartIndex(0) *)
| ReloadPage                        (* window.location.reload() *)
| Await (command : string).         (* axios.post(apiEndpoint, {command, session_id}) is pending *)

(** [executeCommand(command)] up to its [await].  [history] and
    [backend_version] are the values captured by the memoised callback;
    [date_string] is [new Date().toLocaleString()]. *)
Definition execute_command (history : list entry) (backend_version : option string)
    (date_string : string) (command : string) : outcome :=
  let trimmedCommand := js_trim command in
  if String.eqb trimmedCommand "" then Append "" HELP_TEXT
  else if String.eqb trimmedCommand "clear" then ClearHistory
  else if String.eqb trimmedCommand "help" then Append trimmedCommand HELP_TEXT
  else if String.eqb trimmedCommand "date" then Append trimmedCommand date_string
  else if String.eqb trimmedCommand "whoami" then Append trimmedCommand "web-user"
  else if starts_with "echo " trimmedCommand then
    Append trimmedCommand (substring_from 5 trimmedCommand)
  else if String.eqb trimmedCommand "ls" then Append trimmedCommand LS_OUTPUT
  else if String.eqb trimmedCommand "pwd" then Append trimmedCommand "/home/web-user"
  else if String.eqb trimmedCommand "history" then
    Append trimmedCommand (history_output history)
  else if String.eqb trimmedCommand "neofetch" then
    Append trimmedCommand
      (NEOFETCH_OUTPUT ++ match backend_version with
                          | Some v => newline ++ "Version: " ++ v
                          | None => ""
                          end)
  else if String.eqb trimmedCommand "about" then
    Append trimmedCommand (about_text backend_version)
  else if String.eqb trimmedCommand "exit" then ReloadPage
  else Await trimmedCommand.

(** How the [axios.post] promise settles.  [None] stands for [null] or
    [undefined] (a missing field). *)
Inductive axios_settle :=
| Fulfilled (data_output data_error : option string)
    (* response.data = {output, error} *)
| RejectedWithResponse (status : Z) (detail : option string)
    (* error.response.status, error.response.data?.detail *)
| RejectedNoResponse (message : option string).
    (* no error.response; error.message *)

(** The [output] computed after the [await], in the [try] block or in
    its [catch]. *)
Definition remote_output (r : axios_settle) : string :=
  match r with
  | Fulfilled out err => js_or (js_or_opt out err) "Command executed"
  | RejectedWithResponse status detail =>
      if (status =? 400)%Z || (status =? 422)%Z then
        "Error: " ++ js_or detail "Invalid input provided"
      else if (status =? 500)%Z then
        "Error: " ++ js_or detail "Internal server error"
      else "Error: " ++ js_or detail "An error occurred"
  | RejectedNoResponse message =>
      "Error: " ++ js_or message "Failed to connect to server"
  end.

(** ** The [Terminal] component as a state machine

    React state of the component, plus the [executeCommand] calls that
    are suspended at their [await axios.post(...)].  [callback_version] is
    the [backendVersion] captured by the memoised [executeCommand]: its
    [useCallback] lists only [history] as a dependency, so the closure is
    refreshed only when [history] is replaced. *)
Record state := mk_state {
  history : list entry;
  current_input : string;
  history_index : Z;
  display_start_index : Z;
  backend_version : option string;
  callback_version : option string;
  pending : list (nat * string);  (* suspended executeCommand calls: id, trimmedCommand *)
  next_call : nat;
  page_reloaded : bool
}.

(** Inputs of the component: DOM events and settled promises. *)
Inductive event :=
| Change (value : string)                     (* onChange of the input *)
| KeyEnter (now : Z) (date_string : string)   (* onKeyDown 'Enter' at time [now] *)
| KeyArrowUp
| KeyArrowDown
| KeyCtrlL
| KeyOther
| VersionFetched (version : string)           (* fetchVersion resolves *)
| Settle (call : nat) (r : axios_settle) (now : Z).  (* axios.post of a call settles *)

Definition set_history (s : state) (h : list entry) : state :=
  {| history := h; current_input := current_input s;
     history_index := history_index s; display_start_index := display_start_index s;
     backend_version := backend_version s; callback_version := backend_version s;
     pending := pending s; next_call := next_call s; page_reloaded := page_reloaded s |}.

Definition set_input (s : state) (v : string) : state :=
  {| history := history s; current_input := v;
     history_index := history_index s; display_start_index := display_start_index s;
     backend_version := backend_version s; callback_version := callback_version s;
     pending := pending s; next_call := next_call s; page_reloaded := page_reloaded s |}.

Definition set_index (s : state) (i : Z) : state :=
  {| history := history s; current_input := current_input s;
     history_index := i; display_start_index := display_start_index s;
     backend_version := backend_version s; callback_version := callback_version s;
     pending := pending s; next_call := next_call s; page_reloaded := page_reloaded s |}.

Definition set_display_start (s : state) (i : Z) : state :=
  {| history := history s; current_input := current_input s;
     history_index := history_index s; display_start_index := i;
     backend_version := backend_version s; callback_version := callback_version s;
     pending := pending s; next_call := next_call s; page_reloaded := page_reloaded s |}.

Definition set_version (s : state) (v : option string) : state :=
  {| history := history s; current_input := current_input s;
     history_index := history_index s; display_start_index := display_start_index s;
     backend_version := v; callback_version := callback_version s;
     pending := pending s; next_call := next_call s; page_reloaded := page_reloaded s |}.

Definition set_pending (s : state) (p : list (nat * string)) (n : nat) : state :=
  {| history := history s; current_input := current_input s;
     history_index := history_index s; display_start_index := display_start_index s;
     backend_version := backend_version s; callback_version := callback_version s;
     pending := p; next_call := n; page_reloaded := page_reloaded s |}.

Definition set_reloaded (s : state) : state :=
  {| history := history s; current_input := current_input s;
     history_index := history_index s; display_start_index := display_start_index s;
     backend_version := backend_version s; callback_version := callback_version s;
     pending := pending s; next_call := next_call s; page_reloaded := true |}.

(** The synchronous effects of [executeCommand(currentInput)]. *)
Definition run_execute (s : state) (now : Z) (date_string : string) : state :=
  match execute_command (history s) (callback_version s) date_string (current_input s) with
  | Append c o => set_history s (history s ++ [mk_entry c o now])
  | ClearHistory => set_display_start (set_history s []) 0
  | ReloadPage => set_reloaded s
  | Await c => set_pending s (pending s ++ [(next_call s, c)]) (S (next_call s))
  end.

(** [handleKeyDown], branch [ArrowUp]. *)
Definition arrow_up (s : state) : state :=
  let cs := commands (history s) in
  let n := Z.of_nat (length cs) in
  if (n =? 0)%Z then s
  else if (history_index s =? -1)%Z then
    set_input (set_index s (n - 1)) (nth (Z.to_nat (n - 1)) cs "")
  else if (history_index s >? 0)%Z then
    let newIndex := (history_index s - 1)%Z in
    set_input (set_index s newIndex) (nth (Z.to_nat newIndex) cs "")
  else s.

(** [handleKeyDown], branch [ArrowDown]. *)
Definition arrow_down (s : state) : state :=
  let cs := commands (history s) in
  let n := Z.of_nat (length cs) in
  if (n =? 0)%Z || (history_index s =? -1)%Z then set_input s ""
  else if (history_index s <? n - 1)%Z then
    let newIndex := (history_index s + 1)%Z in
    set_input (set_index s newIndex) (nth (Z.to_nat newIndex) cs "")
  else set_index (set_input s "") (-1).

Fixpoint take_pending (call : nat) (p : list (nat * string))
    : option (string * list (nat * string)) :=
  match p with
  | [] => None
  | (i, c) :: r =>
      if Nat.eqb i call then Some (c, r)
      else match take_pending call r with
           | Some (c', r') => Some (c', (i, c) :: r')
           | None => None
           end
  end.

(** One transition of the component.  After [window.location.reload()]
    the page is gone and nothing more happens. *)
Definition step (s : state) (e : event) : state :=
  if page_reloaded s then s else
  match e with
  | Change v => set_input s v
  | KeyEnter now date_string =>
      set_index (set_input (run_execute s now date_string) "") (-1)
  | KeyArrowUp => arrow_up s
  | KeyArrowDown => arrow_down s
  | KeyCtrlL => set_display_start s (Z.of_nat (length (history s)))
  | KeyOther => s
  | VersionFetched v => if String.eqb v "" then s else set_version s (Some v)
  | Settle call r now =>
      match take_pending call (pending s) with
      | Some (c, rest) =>
          set_history (set_pending s rest (next_call s))
            (history s ++ [mk_entry c (remote_output r) now])
      | None => s
      end
  end.

Definition run (s : state) (es : list event) : state := fold_left step es s.

(** The component right after mounting, with [loaded] the history read
    back from [localStorage] (empty when nothing was stored). *)
Definition initial_state (loaded : list entry) : state :=
  {| history := loaded; current_input := ""; history_index := -1;
     display_start_index := 0; backend_version := None; callback_version := None;
     pending := []; next_call := O; page_reloaded := false |}.

(** ** What the page renders *)



(** ** [getSessionId] *)

(** [window.localStorage]: its items, and whether reading and writing
    succeed ([getItem] or [setItem] may throw, e.g. when storage is
    disabled or the quota is exceeded). *)
Record local_storage := mk_storage {
  items : list (string * string);
  can_read : bool;
  can_write : bool
}.

Fixpoint lookup_item (k : string) (l : list (string * string)) : option string :=
  match l with
  | [] => None
  | (k', v) :: r => if String.eqb k k' then Some v else lookup_item k r
  end.

(** [localStorage.getItem(k)]: [None] when it throws. *)
Definition get_item (st : local_storage) (k : string) : option (option string) :=
  if can_read st then Some (lookup_item k (items st)) else None.

(** [localStorage.setItem(k, v)]: [None] when it throws. *)
Definition set_item (st : local_storage) (k v : string) : option local_storage :=
  if can_write st then
    Some (mk_storage ((k, v) :: filter (fun p => negb (String.eqb (fst p) k)) (items st))
                     (can_read st) (can_write st))
  else None.

(** ['session_' + Date.now() + '_' + Math.random().toString(36).substr(2, 9)]
    for the time [now] and the random characters [random]. *)
Definition new_session_id (now : Z) (random : string) : string :=
  "session_" ++ dec now ++ "_" ++ random.

(** [getSessionId()]: the id and the storage afterwards.  [has_window]
    is [typeof window !== 'undefined']; [now1]/[random1] are used in the
    [try] block and [now2]/[random2] in the [catch] block. *)
Definition get_session_id (has_window : bool) (st : local_storage)
    (now1 : Z) (random1 : string) (now2 : Z) (random2 : string) : string * local_storage :=
  if negb has_window then ("", st) else
  let fallback := (new_session_id now2 random2, st) in
  let create :=
    let sessionId := new_session_id now1 random1 in
    match set_item st "terminal_session_id" sessionId with
    | Some st' => (sessionId, st')
    | None => fallback
    end in
  match get_item st "terminal_session_id" with
  | None => fallback
  | Some (Some stored) => if String.eqb stored "" then create else (stored, st)
  | Some None => create
  end.

(** ** The backend's [weather] command *)

Module Backend.

(** Deployment configuration read from the environment. *)
Record config := mk_config {
  default_weather_location : option string;  (* DEFAULT_WEATHER_LOCATION *)
  max_command_length : nat                   (* cap on the command string *)
}.

Inductive validation_error :=
| CommandTooLong
| LocationBadCharacters
| LocationTooLong.

(** [CommandResult] of [/api/execute], or the HTTP error it raises. *)
Inductive result :=
| Success (output : string)
| ValidationError (reason : validation_error)
| Failure (message : string).

Definition is_location_char (c : ascii) : bool :=
  let n := nat_of_ascii c in
  ((48 <=? n)%nat && (n <=? 57)%nat) || ((65 <=? n)%nat && (n <=? 90)%nat)
  || ((97 <=? n)%nat && (n <=? 122)%nat) || (n =? 32)%nat || (n =? 45)%nat
  || (n =? 44)%nat.

Fixpoint all_chars (p : ascii -> bool) (s : string) : bool :=
  match s with
  | EmptyString => true
  | String c r => p c && all_chars p r
  end.

Definition usage (name : string) : string :=
  "Usage: " ++ name ++ " [location]" ++ newline ++ "Example: " ++ name ++ " London".

(** Modelled from the spec: the backend's handling of
    [weather [location]] in [/api/execute], whose source is not part of
    the sources at hand (section 4.4 of the spec and the README's
    "Weather Command").  The command length is checked against the cap;
    the location is the rest of the command after ["weather "]; an
    omitted location is replaced by the configured default, or answered
    with the usage text as a successful result; a given location must
    use letters, digits, spaces, hyphens and commas only, and at most 100
    characters; [fetch] is the bounded call to the weather provider with
    its output normalised, and [other] the remaining server-side
    commands. *)
Definition execute (cfg : config) (fetch : string -> result) (other : string -> result)
    (command : string) : result :=
  if (max_command_length cfg <? String.length command)%nat then ValidationError CommandTooLong
  else if String.eqb command "weather" || starts_with "weather " command then
    let location := js_trim (substring_from 8 command) in
    if String.eqb location "" then
      match default_weather_location cfg with
      | Some d => fetch d
      | None => Success (usage "weather")
      end
    else if negb (all_chars is_location_char location) then ValidationError LocationBadCharacters
    else if (100 <? String.length location)%nat then ValidationError LocationTooLong
    else fetch location
  else other command.

(** The response the frontend receives for a successful result (the
    HTTP statuses of the errors are not fixed by the spec). *)
Definition to_response (r : result) : option axios_settle :=
  match r with
  | Success o => Some (Fulfilled (Some o) None)
  | _ => None
  end.

End Backend.

(** ** Persistence of the history in [localStorage] *)

Module Persist.

Local Open Scope Z_scope.

(** *** Dates: [Date.prototype.toISOString] and [new Date(isoString)] *)

Definition msPerDay : Z := 86400000.

(** Largest time value of a [Date] ([TimeClip]). *)
Definition max_time : Z := 8640000000000000.

(** Year, month (1-12) and day (1-31) of a day number counted from the
    epoch, for the proleptic Gregorian calendar of ECMAScript
    ([YearFromTime], [MonthFromTime], [DateFromTime]). *)
Definition civil_from_days (z0 : Z) : Z * Z * Z :=
  let z := z0 + 719468 in
  let era := z / 146097 in
  let doe := z - era * 146097 in
  let yoe := (doe - doe / 1460 + doe / 36524 - doe / 146096) / 365 in
  let y := yoe + era * 400 in
  let doy := doe - (365 * yoe + yoe / 4 - yoe / 100) in
  let mp := (5 * doy + 2) / 153 in
  let d := doy - (153 * mp + 2) / 5 + 1 in
  let m := if mp <? 10 then mp + 3 else mp - 9 in
  ((if m <=? 2 then y + 1 else y), m, d).

(** [MakeDay(year, month - 1, day)]: the day number of a date, with
    [day] counted from the first of the month. *)
Definition days_from_civil (y0 m d : Z) : Z :=
  let y := if m <=? 2 then y0 - 1 else y0 in
  let era := y / 400 in
  let yoe := y - era * 400 in
  let mp := if m >? 2 then m - 3 else m + 9 in
  let doy := (153 * mp + 2) / 5 + d - 1 in
  let doe := yoe * 365 + yoe / 4 - yoe / 100 + doy in
  era * 146097 + doe - 719468.

Definition chr (n : nat) : string := String (ascii_of_nat n) EmptyString.

(** The year field: four digits for years 0 to 9999, otherwise a sign
    and six digits. *)
Definition year_string (y : Z) : string :=
  if (0 <=? y) && (y <=? 9999) then pad_dec 4 y
  else (if y <? 0 then "-" else "+") ++ pad_dec 6 (Z.abs y).

(** [Date.prototype.toISOString]: [None] is the [RangeError] thrown for
    a time value that is not finite. *)
Definition to_iso_string (t : Z) : option string :=
  if max_time <? Z.abs t then None else
  let day := t / msPerDay in
  let ms := t mod msPerDay in
  let '(y, m, d) := civil_from_days day in
  Some (year_string y ++ "-" ++ pad_dec 2 m ++ "-" ++ pad_dec 2 d ++ "T"
        ++ pad_dec 2 (ms / 3600000) ++ ":" ++ pad_dec 2 ((ms / 60000) mod 60) ++ ":"
        ++ pad_dec 2 ((ms / 1000) mod 60) ++ "." ++ pad_dec 3 (ms mod 1000) ++ "Z").

Definition is_digit (c : ascii) : bool :=
  ((48 <=? nat_of_ascii c)%nat && (nat_of_ascii c <=? 57)%nat).

(** Reads exactly [k] decimal digits. *)
Fixpoint parse_digits (k : nat) (acc : Z) (s : string) : option (Z * string) :=
  match k with
  | O => Some (acc, s)
  | S k' =>
      match s with
      | String c r =>
          if is_digit c then parse_digits k' (acc * 10 + Z.of_nat (nat_of_ascii c - 48)) r
          else None
      | EmptyString => None
      end
  end.

Definition expect (c : ascii) (s : string) : option string :=
  match s with
  | String c' r => if Ascii.eqb c c' then Some r else None
  | EmptyString => None
  end.

Definition parse_year (s : string) : option (Z * string) :=
  match s with
  | String c r =>
      if Ascii.eqb c "+" then parse_digits 6 0 r
      else if Ascii.eqb c "-" then
        match parse_digits 6 0 r with
        | Some (n, r') => if n =? 0 then None else Some (- n, r')
        | None => None
        end
      else parse_digits 4 0 s
  | EmptyString => None
  end.

Local Notation "'let?' x := a 'in' b" :=
  (match a with Some x => b | None => None end)
  (at level 200, x pattern, a at level 100, b at level 200).

(** [new Date(s)] for a string in the date-time format
    [YYYY-MM-DDTHH:mm:ss.sssZ] (or with an expanded year [+YYYYYY] /
    [-YYYYYY]): [MakeDate(MakeDay(..), MakeTime(..))] and [TimeClip].
    [None] is the invalid date; the other formats [Date.parse] accepts
    are not modelled. *)
Definition parse_iso (s : string) : option Z :=
  let? (y, s) := parse_year s in
  let? s := expect "-" s in
  let? (mo, s) := parse_digits 2 0 s in
  let? s := expect "-" s in
  let? (d, s) := parse_digits 2 0 s in
  let? s := expect "T" s in
  let? (h, s) := parse_digits 2 0 s in
  let? s := expect ":" s in
  let? (mi, s) := parse_digits 2 0 s in
  let? s := expect ":" s in
  let? (sec, s) := parse_digits 2 0 s in
  let? s := expect "." s in
  let? (ms, s) := parse_digits 3 0 s in
  let? s := expect "Z" s in
  if negb (String.eqb s "") then None
  else if negb ((1 <=? mo) && (mo <=? 12) && (1 <=? d) && (d <=? 31)
                && (h <=? 24) && (mi <=? 59) && (sec <=? 59)) then None
  else if (h =? 24) && negb ((mi =? 0) && (sec =? 0) && (ms =? 0)) then None
  else
    let t := days_from_civil y mo d * msPerDay
             + (h * 3600000 + mi * 60000 + sec * 1000 + ms) in
    if max_time <? Z.abs t then None else Some t.

(** *** JSON text: [JSON.stringify] and [JSON.parse] *)

(** JSON values; numbers are left out (the persisted history has none). *)
#[local] Set Warnings "-register-all".

Inductive json :=
| JNull
| JBool (b : bool)
| JStr (s : string)
| JArr (l : list json)
| JObj (members : list (string * json)).

Definition dquote : string := chr 34.

Definition hex_digit (n : nat) : string :=
  if (n <? 10)%nat then chr (48 + n) else chr (87 + n).

(** One code unit inside a string literal ([QuoteJSONString]). *)
Definition escape_char (c : ascii) : string :=
  let n := nat_of_ascii c in
  if (n =? 8)%nat then "\b"
  else if (n =? 9)%nat then "\t"
  else if (n =? 10)%nat then "\n"
  else if (n =? 12)%nat then "\f"
  else if (n =? 13)%nat then "\r"
  else if (n =? 34)%nat then "\" ++ dquote
  else if (n =? 92)%nat then "\\"
  else if (n <? 32)%nat then "\u00" ++ hex_digit (n / 16) ++ hex_digit (n mod 16)
  else String c EmptyString.

Fixpoint escape (s : string) : string :=
  match s with
  | EmptyString => EmptyString
  | String c r => escape_char c ++ escape r
  end.

Definition quote (s : string) : string := dquote ++ escape s ++ dquote.

(** [JSON.stringify(value)] with no indentation. *)
Fixpoint stringify (v : json) : string :=
  match v with
  | JNull => "null"
  | JBool true => "true"
  | JBool false => "false"
  | JStr s => quote s
  | JArr l => "[" ++ join "," (map stringify l) ++ "]"
  | JObj ms =>
      "{" ++ join "," (map (fun m => quote (fst m) ++ ":" ++ stringify (snd m)) ms) ++ "}"
  end.

Definition is_json_space (c : ascii) : bool :=
  let n := nat_of_ascii c in
  (n =? 32)%nat || (n =? 9)%nat || (n =? 10)%nat || (n =? 13)%nat.

Fixpoint skip_ws (s : string) : string :=
  match s with
  | String c r => if is_json_space c then skip_ws r else s
  | EmptyString => EmptyString
  end.

Definition hex_value (c : ascii) : option nat :=
  let n := nat_of_ascii c in
  if (48 <=? n)%nat && (n <=? 57)%nat then Some (n - 48)%nat
  else if (97 <=? n)%nat && (n <=? 102)%nat then Some (n - 87)%nat
  else if (65 <=? n)%nat && (n <=? 70)%nat then Some (n - 55)%nat
  else None.

(** The characters of a string literal after its opening quote, up to
    and including the closing quote.  A [\uXXXX] escape above [00FF]
    denotes a code unit outside the model and is refused. *)
Fixpoint parse_string_body (s : string) : option (string * string) :=
  match s with
  | EmptyString => None
  | String c r =>
      let n := nat_of_ascii c in
      if (n =? 34)%nat then Some (EmptyString, r)
      else if (n =? 92)%nat then
        match r with
        | String e r1 =>
            let k := nat_of_ascii e in
            let simple (u : nat) :=
              match parse_string_body r1 with
              | Some (b, rest) => Some (String (ascii_of_nat u) b, rest)
              | None => None
              end in
            if (k =? 34)%nat then simple 34%nat
            else if (k =? 92)%nat then simple 92%nat
            else if (k =? 47)%nat then simple 47%nat
            else if (k =? 98)%nat then simple 8%nat
            else if (k =? 102)%nat then simple 12%nat
            else if (k =? 110)%nat then simple 10%nat
            else if (k =? 114)%nat then simple 13%nat
            else if (k =? 116)%nat then simple 9%nat
            else if (k =? 117)%nat then
              match r1 with
              | String h1 (String h2 (String h3 (String h4 r2))) =>
                  match hex_value h1, hex_value h2, hex_value h3, hex_value h4 with
                  | Some a1, Some a2, Some a3, Some a4 =>
                      let u := (((a1 * 16 + a2) * 16 + a3) * 16 + a4)%nat in
                      if (u <? 256)%nat then
                        match parse_string_body r2 with
                        | Some (b, rest) => Some (String (ascii_of_nat u) b, rest)
                        | None => None
                        end
                      else None
                  | _, _, _, _ => None
                  end
              | _ => None
              end
            else None
        | EmptyString => None
        end
      else if (n <? 32)%nat then None
      else
        match parse_string_body r with
        | Some (b, rest) => Some (String c b, rest)
        | None => None
        end
  end.

Definition starts_with_char (n : nat) (s : string) : bool :=
  match s with
  | String c _ => (nat_of_ascii c =? n)%nat
  | EmptyString => false
  end.

(** The JSON grammar, one recursive call per unit of [fuel]. *)
Fixpoint parse_value (fuel : nat) (s0 : string) : option (json * string) :=
  match fuel with
  | O => None
  | S f =>
      let s := skip_ws s0 in
      match s with
      | String c r =>
          let n := nat_of_ascii c in
          if (n =? 34)%nat then
            match parse_string_body r with
            | Some (str, rest) => Some (JStr str, rest)
            | None => None
            end
          else if (n =? 91)%nat then
            let r' := skip_ws r in
            if starts_with_char 93 r' then Some (JArr [], substring_from 1 r')
            else match parse_elements f r' with
                 | Some (l, rest) => Some (JArr l, rest)
                 | None => None
                 end
          else if (n =? 123)%nat then
            let r' := skip_ws r in
            if starts_with_char 125 r' then Some (JObj [], substring_from 1 r')
            else match parse_members f r' with
                 | Some (ms, rest) => Some (JObj ms, rest)
                 | None => None
                 end
          else if String.prefix "null" s then Some (JNull, substring_from 4 s)
          else if String.prefix "true" s then Some (JBool true, substring_from 4 s)
          else if String.prefix "false" s then Some (JBool false, substring_from 5 s)
          else None
      | EmptyString => None
      end
  end
(** Array elements, after the [[] and before the closing []]. *)
with parse_elements (fuel : nat) (s : string) : option (list json * string) :=
  match fuel with
  | O => None
  | S f =>
      match parse_value f s with
      | Some (v, r) =>
          let r' := skip_ws r in
          if starts_with_char 44 r' then
            match parse_elements f (substring_from 1 r') with
            | Some (vs, rest) => Some (v :: vs, rest)
            | None => None
            end
          else if starts_with_char 93 r' then Some ([v], substring_from 1 r')
          else None
      | None => None
      end
  end
(** Object members, after the [{] and before the closing [}]. *)
with parse_members (fuel : nat) (s0 : string) : option (list (string * json) * string) :=
  match fuel with
  | O => None
  | S f =>
      let s := skip_ws s0 in
      if negb (starts_with_char 34 s) then None else
      match parse_string_body (substring_from 1 s) with
      | Some (k, r) =>
          let r1 := skip_ws r in
          if negb (starts_with_char 58 r1) then None else
          match parse_value f (substring_from 1 r1) with
          | Some (v, r2) =>
              let r3 := skip_ws r2 in
              if starts_with_char 44 r3 then
                match parse_members f (substring_from 1 r3) with
                | Some (ms, rest) => Some ((k, v) :: ms, rest)
                | None => None
                end
              else if starts_with_char 125 r3 then Some ([(k, v)], substring_from 1 r3)
              else None
          | None => None
          end
      | None => None
      end
  end.

(** [JSON.parse(text)]: [None] is the [SyntaxError]. *)
Definition json_parse (text : string) : option json :=
  match parse_value (S (String.length text)) text with
  | Some (v, rest) => if String.eqb (skip_ws rest) "" then Some v else None
  | None => None
  end.

(** Property read on a parsed object: the last member with that key. *)
Fixpoint get (k : string) (ms : list (string * json)) : option json :=
  match ms with
  | [] => None
  | (k', v) :: r =>
      match get k r with
      | Some x => Some x
      | None => if String.eqb k k' then Some v else None
      end
  end.

Fixpoint traverse {A B : Type} (f : A -> option B) (l : list A) : option (list B) :=
  match l with
  | [] => Some []
  | x :: r =>
      match f x, traverse f r with
      | Some y, Some ys => Some (y :: ys)
      | _, _ => None
      end
  end.

(** *** The two effects of the component *)

(** One element of [serializable] in the persist effect. *)
Definition serialize_entry (h : entry) : option json :=
  match to_iso_string (timestamp h) with
  | Some iso => Some (JObj [("command", JStr (command h)); ("output", JStr (output h));
                           ("timestamp", JStr iso)])
  | None => None
  end.

(** The text written by
    [localStorage.setItem('terminal_history', JSON.stringify(serializable))];
    [None] when [toISOString] throws and the [catch] leaves the stored
    text as it was. *)
Definition persist (history : list entry) : option string :=
  match traverse serialize_entry history with
  | Some l => Some (stringify (JArr l))
  | None => None
  end.

(** One element of [parsed.map(...)] in the load effect. *)
Definition deserialize_entry (v : json) : option entry :=
  match v with
  | JObj ms =>
      match get "command" ms, get "output" ms, get "timestamp" ms with
      | Some (JStr c), Some (JStr o), Some (JStr ts) =>
          match parse_iso ts with
          | Some t => Some (mk_entry c o t)
          | None => None
          end
      | _, _, _ => None
      end
  | _ => None
  end.

(** The history set by the load effect from the stored text, if any.
    [None]: the history stays empty (nothing stored, an empty text, or a
    [JSON.parse] error caught by the [catch]), or the stored value lies
    outside the model (a member that is not a string, an invalid date). *)
Definition load (stored : option string) : option (list entry) :=
  match stored with
  | None => None
  | Some text =>
      if String.eqb text "" then None else
      match json_parse text with
      | Some (JArr vs) => traverse deserialize_entry vs
      | _ => None
      end
  end.

End Persist.

(** ** General lemmas *)

Lemma step_live (s : state) (e : event) :
  page_reloaded s = false ->
  step s e =
  match e with
  | Change v => set_input s v
  | KeyEnter now date_string =>
      set_index (set_input (run_execute s now date_string) "") (-1)
  | KeyArrowUp => arrow_up s
  | KeyArrowDown => arrow_down s
  | KeyCtrlL => set_display_start s (Z.of_nat (length (history s)))
  | KeyOther => s
  | VersionFetched v => if String.eqb v "" then s else set_version s (Some v)
  | Settle call r now =>
      match take_pending call (pending s) with
      | Some (c, rest) =>
          set_history (set_pending s rest (next_call s))
            (history s ++ [mk_entry c (remote_output r) now])
      | None => s
      end
  end.
Proof. intros H. unfold step. rewrite H. reflexivity. Qed.

Lemma run_app (s : state) (es1 es2 : list event) :
  run s (es1 ++ es2) = run (run s es1) es2.
Proof. unfold run. apply fold_left_app. Qed.

Lemma prefix_app (p s : string) :
  String.prefix p s = true -> s = p ++ substring_from (String.length p) s.
Proof.
  revert s; induction p as [|a p IH]; intros s H; [reflexivity|].
  destruct s as [|b s]; [discriminate|].
  simpl in H. destruct (ascii_dec a b) as [->|]; [|discriminate].
  simpl. f_equal. apply IH; exact H.
Qed.

(** The routing of [executeCommand]: a line that is not [""] and not
    one of the local command names goes past every local branch. *)
Ltac skip_local_branch H :=
  repeat match goal with
  | |- context [String.eqb ?t ?lit] =>
      let E := fresh "E" in
      destruct (String.eqb_spec t lit) as [E|E];
      [rewrite E in H; vm_compute in H; discriminate H|]
  end.

Lemma set_history_history (s : state) (h : list entry) : history (set_history s h) = h.
Proof. reflexivity. Qed.

(** ** Empty submission *)


(** C4: submitting a line whose trimmed text is empty appends the
    synthetic entry [{command: "", output: HELP_TEXT}], whose output starts
    with "Available commands:", and issues no remote call (the set of
    suspended calls is unchanged). *)
Theorem empty_submit_shows_help (s : state) (now : Z) (date_string : string) :
  page_reloaded s = false ->
  js_trim (current_input s) = "" ->
  execute_command (history s) (callback_version s) date_string (current_input s)
    = Append "" HELP_TEXT /\
  history (step s (KeyEnter now date_string)) = (history s ++ [mk_entry "" HELP_TEXT now])%list /\
  pending (step s (KeyEnter now date_string)) = pending s /\
  String.prefix "Available commands:" HELP_TEXT = true.
Proof.
  intros Hlive Hempty.
  assert (Hx : execute_command (history s) (callback_version s) date_string (current_input s)
               = Append "" HELP_TEXT).
  { unfold execute_command. rewrite Hempty. reflexivity. }
  rewrite step_live by exact Hlive. unfold run_execute. rewrite Hx.
  repeat split; reflexivity.
Qed.

Lemma empty_submit_shows_help_witness :
  history (step (set_input (initial_state []) "   ") (KeyEnter 5 "d"))
  = [mk_entry "" HELP_TEXT 5].
Proof.
  destruct (empty_submit_shows_help (set_input (initial_state []) "   ") 5 "d"
              eq_refl eq_refl) as [_ [H _]].
  exact H.
Defined.

(** ** The [echo] command *)

(** C6: a trimmed line starting with ["echo "] appends an entry whose
    output is everything after the prefix, verbatim; in particular
    ["echo Hello World"] gives exactly ["Hello World"]. *)
Theorem echo_output_verbatim (s : state) (now : Z) (date_string : string) :
  page_reloaded s = false ->
  starts_with "echo " (js_trim (current_input s)) = true ->
  let t := js_trim (current_input s) in
  history (step s (KeyEnter now date_string))
    = (history s ++ [mk_entry t (substring_from 5 t) now])%list /\
  t = "echo " ++ substring_from 5 t /\
  (forall h v d, execute_command h v d "echo Hello World"
                 = Append "echo Hello World" "Hello World").
Proof.
  intros Hlive Hecho t.
  split; [|split].
  - rewrite step_live by exact Hlive. unfold run_execute, execute_command.
    fold t. fold t in Hecho. cbv zeta.
    skip_local_branch Hecho. rewrite Hecho. reflexivity.
  - apply (prefix_app "echo " t). exact Hecho.
  - intros h v d. reflexivity.
Qed.

Lemma echo_output_verbatim_witness :
  history (step (set_input (initial_state []) " echo  Hello   World ") (KeyEnter 1 "d"))
  = [mk_entry "echo  Hello   World" " Hello   World" 1].
Proof.
  destruct (echo_output_verbatim (set_input (initial_state []) " echo  Hello   World ") 1 "d"
              eq_refl eq_refl) as [H _].
  exact H.
Defined.

(** ** What a submission appends *)

(** Every suspended call has an id below [next_call]: true of every
    state the component reaches (ids are handed out by [next_call]). *)
Definition fresh_calls (s : state) : Prop :=
  Forall (fun p => (fst p < next_call s)%nat) (pending s).

Lemma take_pending_last (n : nat) (c : string) (p : list (nat * string)) :
  Forall (fun q => (fst q < n)%nat) p ->
  take_pending n (p ++ [(n, c)]) = Some (c, p).
Proof.
  induction p as [|[i d] p IH]; intros Hf.
  - simpl. rewrite Nat.eqb_refl. reflexivity.
  - inversion Hf as [|? ? Hi Hr]; subst. simpl in Hi.
    simpl. destruct (Nat.eqb_spec i n) as [->|_]; [lia|].
    rewrite IH by exact Hr. reflexivity.
Qed.

Lemma execute_command_routes (h : list entry) (v : option string) (d cmd : string) :
  let t := js_trim cmd in
  t <> "" -> t <> "clear" -> t <> "exit" ->
  (exists o, execute_command h v d cmd = Append t o) \/
  execute_command h v d cmd = Await t.
Proof.
  intros t H1 H2 H3. unfold execute_command. fold t. cbv zeta.
  repeat match goal with
  | |- context [if ?b then _ else _] =>
      let E := fresh "E" in destruct b eqn:E
  end;
  repeat match goal with
  | E : String.eqb _ _ = true |- _ => apply String.eqb_eq in E
  end;
  try (left; eexists; reflexivity); try (right; reflexivity);
  congruence.
Qed.

(** C2 (as the code has it): a submitted line whose trimmed text [t] is
    non-empty and is neither ["clear"] nor ["exit"] appends exactly one
    entry [{command: t, output}]: at once for a local command, and when
    its call settles, with the output computed from the response, for a
    remote one.  ["clear"] empties the history and resets the display
    offset; ["exit"] reloads the page; neither appends an entry. *)
Theorem submit_appends_one_entry (s : state) (now : Z) (date_string : string) :
  page_reloaded s = false ->
  fresh_calls s ->
  let t := js_trim (current_input s) in
  let s' := step s (KeyEnter now date_string) in
  (t <> "" -> t <> "clear" -> t <> "exit" ->
     (exists o, history s' = (history s ++ [mk_entry t o now])%list) \/
     (history s' = history s /\
      forall r now', history (step s' (Settle (next_call s) r now'))
                     = (history s ++ [mk_entry t (remote_output r) now'])%list)) /\
  (t = "clear" -> history s' = [] /\ display_start_index s' = 0%Z) /\
  (t = "exit" -> history s' = history s /\ page_reloaded s' = true).
Proof.
  intros Hlive Hfresh t s'. subst s'.
  rewrite step_live by exact Hlive. unfold run_execute.
  split; [|split].
  - intros H1 H2 H3.
    destruct (execute_command_routes (history s) (callback_version s) date_string
                (current_input s) H1 H2 H3) as [[o Ho]|Ho];
      rewrite Ho; [left; exists o; reflexivity|right].
    split; [reflexivity|]. intros r now'.
    rewrite step_live by exact Hlive. simpl.
    rewrite take_pending_last by exact Hfresh. reflexivity.
  - intros Hc. unfold execute_command. fold t. rewrite Hc. simpl.
    split; reflexivity.
  - intros He. unfold execute_command. fold t. rewrite He. simpl.
    split; reflexivity.
Qed.

(** C2 counterexample: submitting ["clear"] with one entry in the
    history appends no entry at all: the history becomes empty. *)
Lemma submit_clear_appends_nothing :
  let s0 := initial_state [mk_entry "help" HELP_TEXT 0] in
  let s1 := run s0 [Change "clear"; KeyEnter 1 "1/1/2025, 12:00:00 AM"] in
  history s1 = [] /\
  ~ (exists o t, history s1 = (history s0 ++ [mk_entry "clear" o t])%list).
Proof.
  split; [reflexivity|]. intros [o [t H]]. vm_compute in H. discriminate H.
Qed.

Lemma submit_appends_one_entry_witness :
  let s := set_input (initial_state []) "uptime" in
  page_reloaded s = false /\ fresh_calls s /\
  history (step (step s (KeyEnter 1 "d")) (Settle 0 (Fulfilled (Some "up 3 days") None) 2))
    = [mk_entry "uptime" "up 3 days" 2].
Proof.
  cbv zeta. split; [reflexivity|]. split; [constructor|].
  destruct (submit_appends_one_entry (set_input (initial_state []) "uptime") 1 "d"
              eq_refl (Forall_nil _)) as [H _].
  destruct (H ltac:(discriminate) ltac:(discriminate) ltac:(discriminate))
    as [[o Ho]|[_ Hr]].
  - vm_compute in Ho. discriminate Ho.
  - exact (Hr (Fulfilled (Some "up 3 days") None) 2%Z).
Defined.

(** ** Settling a remote call *)

Lemma settle_appends (s : state) (call : nat) (c : string) (rest : list (nat * string))
    (r : axios_settle) (now : Z) :
  page_reloaded s = false ->
  take_pending call (pending s) = Some (c, rest) ->
  history (step s (Settle call r now)) = (history s ++ [mk_entry c (remote_output r) now])%list.
Proof.
  intros Hlive Ht. rewrite step_live by exact Hlive. rewrite Ht. reflexivity.
Qed.

(** C10: when a remote call is fulfilled with [output] null or empty,
    the appended entry's output is the response's [error] when that is
    non-empty, and ["Command executed"] otherwise; it is never empty. *)
Theorem empty_remote_output_fallback (s : state) (call : nat) (c : string)
    (rest : list (nat * string)) (out err : option string) (now : Z) :
  page_reloaded s = false ->
  take_pending call (pending s) = Some (c, rest) ->
  (out = None \/ out = Some "") ->
  exists o,
    history (step s (Settle call (Fulfilled out err) now))
      = (history s ++ [mk_entry c o now])%list /\
    ((exists e, err = Some e /\ e <> "" /\ o = e) \/
     ((err = None \/ err = Some "") /\ o = "Command executed")) /\
    o <> "".
Proof.
  intros Hlive Ht Hout.
  exists (remote_output (Fulfilled out err)).
  split; [apply settle_appends with (rest := rest); assumption|].
  assert (Hor : js_or_opt out err = err) by (destruct Hout as [-> | ->]; reflexivity).
  simpl. rewrite Hor.
  destruct err as [e|]; simpl.
  - destruct (String.eqb_spec e "") as [->|Hne].
    + split; [right; split; [right; reflexivity|reflexivity]|discriminate].
    + split; [left; exists e; repeat split; assumption|assumption].
  - split; [right; split; [left; reflexivity|reflexivity]|discriminate].
Qed.

Lemma empty_remote_output_fallback_witness :
  let s := step (set_input (initial_state []) "uptime") (KeyEnter 1 "d") in
  page_reloaded s = false /\
  take_pending 0 (pending s) = Some ("uptime", []) /\
  history (step s (Settle 0 (Fulfilled (Some "") (Some "no such command")) 2))
    = [mk_entry "uptime" "no such command" 2].
Proof.
  cbv zeta. split; [reflexivity|]. split; [reflexivity|].
  destruct (empty_remote_output_fallback
              (step (set_input (initial_state []) "uptime") (KeyEnter 1 "d"))
              0 "uptime" [] (Some "") (Some "no such command") 2
              eq_refl eq_refl (or_intror eq_refl)) as [o [Ho [[[e [He [_ Hoe]]]|[[Hn|Hn] _]] _]]].
  - injection He as <-. rewrite Ho, Hoe. reflexivity.
  - discriminate Hn.
  - discriminate Hn.
Defined.

(** ** Failures of a remote call *)

(** C5 counterexample: a 500 response whose detail is the empty string
    is shown with the fallback text, not as ["Error: " ++ ""]; likewise a
    transport failure with an empty message. *)
Lemma empty_detail_uses_fallback :
  remote_output (RejectedWithResponse 500 (Some "")) = "Error: Internal server error" /\
  remote_output (RejectedWithResponse 500 (Some "")) <> "Error: " ++ "" /\
  remote_output (RejectedNoResponse (Some "")) = "Error: Failed to connect to server" /\
  remote_output (RejectedNoResponse (Some "")) <> "Error: " ++ "".
Proof. repeat split; vm_compute; congruence. Qed.

(** C5 (as the code has it): a settled remote call always ends in the
    output string of the appended entry.  A 500 response with a
    non-empty detail [d] gives ["Error: " ++ d], with an absent or empty
    detail ["Error: Internal server error"]; a failure without a response
    gives ["Error: " ++ m] for a non-empty transport message [m], and
    ["Error: Failed to connect to server"] when the message is absent or
    empty. *)
Theorem remote_failure_output (s : state) (call : nat) (c : string)
    (rest : list (nat * string)) (r : axios_settle) (now : Z) :
  page_reloaded s = false ->
  take_pending call (pending s) = Some (c, rest) ->
  history (step s (Settle call r now))
    = (history s ++ [mk_entry c (remote_output r) now])%list /\
  (forall d, d <> "" -> remote_output (RejectedWithResponse 500 (Some d)) = "Error: " ++ d) /\
  (forall d, (d = None \/ d = Some "") ->
     remote_output (RejectedWithResponse 500 d) = "Error: Internal server error") /\
  (forall m, m <> "" -> remote_output (RejectedNoResponse (Some m)) = "Error: " ++ m) /\
  (forall m, (m = None \/ m = Some "") ->
     remote_output (RejectedNoResponse m) = "Error: Failed to connect to server").
Proof.
  intros Hlive Ht. split; [apply settle_appends with (rest := rest); assumption|].
  repeat split.
  - intros d Hd. simpl. destruct (String.eqb_spec d "") as [->|_]; [congruence|reflexivity].
  - intros d [-> | ->]; reflexivity.
  - intros m Hm. simpl. destruct (String.eqb_spec m "") as [->|_]; [congruence|reflexivity].
  - intros m [-> | ->]; reflexivity.
Qed.

Lemma remote_failure_output_witness :
  let s := step (set_input (initial_state []) "uptime") (KeyEnter 1 "d") in
  history (step s (Settle 0 (RejectedNoResponse (Some "Network Error")) 2))
    = [mk_entry "uptime" "Error: Network Error" 2] /\
  remote_output (RejectedWithResponse 500 (Some "Internal server error"))
    = "Error: Internal server error".
Proof.
  cbv zeta.
  destruct (remote_failure_output
              (step (set_input (initial_state []) "uptime") (KeyEnter 1 "d"))
              0 "uptime" [] (RejectedNoResponse (Some "Network Error")) 2
              eq_refl eq_refl) as [Hh [H500 _]].
  split.
  - rewrite Hh. reflexivity.
  - apply H500. discriminate.
Defined.

(** ** The history cursor *)

Definition cursor_ok (s : state) : Prop :=
  history_index s = (-1)%Z \/
  (0 <= history_index s < Z.of_nat (length (commands (history s))))%Z.

Lemma commands_app (h1 h2 : list entry) :
  commands (h1 ++ h2) = (commands h1 ++ commands h2)%list.
Proof. unfold commands. rewrite filter_app, map_app. reflexivity. Qed.

Lemma commands_nonempty (h : list entry) : Forall (fun c => c <> "") (commands h).
Proof.
  unfold commands. apply Forall_map, Forall_forall. intros e He.
  apply filter_In in He as [_ He]. destruct (String.eqb_spec (command e) "");
  [discriminate|assumption].
Qed.

Lemma cursor_ok_grow (s : state) (h : list entry) :
  cursor_ok s -> (length (commands (history s)) <= length (commands h))%nat ->
  history_index s = (-1)%Z \/
  (0 <= history_index s < Z.of_nat (length (commands h)))%Z.
Proof. unfold cursor_ok. lia. Qed.

Lemma step_cursor_ok (s : state) (e : event) : cursor_ok s -> cursor_ok (step s e).
Proof.
  intros Hok. unfold step. destruct (page_reloaded s); [exact Hok|].
  destruct e as [v|now d| | | | |v|call r now].
  - exact Hok.
  - left. reflexivity.
  - unfold arrow_up. cbv zeta.
    destruct (Z.eqb_spec (Z.of_nat (length (commands (history s)))) 0); [exact Hok|].
    destruct (Z.eqb_spec (history_index s) (-1)).
    + right. simpl. lia.
    + destruct (Z.gtb_spec (history_index s) 0); [right; simpl|exact Hok].
      unfold cursor_ok in Hok. lia.
  - unfold arrow_down. cbv zeta.
    destruct (Z.eqb_spec (Z.of_nat (length (commands (history s)))) 0);
      [exact Hok|].
    destruct (Z.eqb_spec (history_index s) (-1)); [exact Hok|]. simpl.
    destruct (Z.ltb_spec (history_index s) (Z.of_nat (length (commands (history s))) - 1)).
    + right. simpl. unfold cursor_ok in Hok. lia.
    + left. reflexivity.
  - exact Hok.
  - exact Hok.
  - destruct (String.eqb v ""); exact Hok.
  - destruct (take_pending call (pending s)) as [[c rest]|]; [|exact Hok].
    unfold cursor_ok; simpl. apply cursor_ok_grow; [exact Hok|].
    rewrite commands_app, length_app. lia.
Qed.

Lemma run_cursor_ok (s : state) (es : list event) : cursor_ok s -> cursor_ok (run s es).
Proof.
  revert s; induction es as [|e es IH]; intros s Hok; [exact Hok|].
  simpl. apply IH, step_cursor_ok, Hok.
Qed.

(** C8: in every state reached from the mounted component by any
    sequence of keystrokes, submissions and settled calls, a cursor
    [>= 0] is below the number of non-empty commands, and the command it
    designates is a non-empty command of the history. *)
Theorem history_cursor_in_range (loaded : list entry) (es : list event) :
  let s := run (initial_state loaded) es in
  (0 <= history_index s)%Z ->
  (history_index s < Z.of_nat (length (commands (history s))))%Z /\
  nth (Z.to_nat (history_index s)) (commands (history s)) "" <> "" /\
  In (nth (Z.to_nat (history_index s)) (commands (history s)) "") (map command (history s)).
Proof.
  intros s Hpos.
  assert (Hok : cursor_ok s) by (apply run_cursor_ok; left; reflexivity).
  destruct Hok as [Hm|Hin]; [lia|].
  assert (Hlt : (Z.to_nat (history_index s) < length (commands (history s)))%nat) by lia.
  split; [lia|]. split.
  - pose proof (commands_nonempty (history s)) as Hne.
    rewrite Forall_forall in Hne. apply Hne, nth_In, Hlt.
  - pose proof (nth_In _ "" Hlt) as Hi.
    set (c := nth (Z.to_nat (history_index s)) (commands (history s)) "") in *.
    unfold commands in Hi.
    apply in_map_iff in Hi as [e [He Hf]]. apply filter_In in Hf as [Hf _].
    rewrite <- He. apply in_map, Hf.
Qed.

Lemma history_cursor_in_range_witness :
  let s := run (initial_state [mk_entry "help" HELP_TEXT 0; mk_entry "" HELP_TEXT 1])
               [KeyArrowUp] in
  history_index s = 0%Z /\
  nth (Z.to_nat (history_index s)) (commands (history s)) "" = "help".
Proof.
  cbv zeta. split; [reflexivity|].
  pose proof (history_cursor_in_range [mk_entry "help" HELP_TEXT 0; mk_entry "" HELP_TEXT 1]
                [KeyArrowUp] ltac:(vm_compute; discriminate)) as [_ [_ Hin]].
  reflexivity.
Defined.

(** ** Navigating the history upwards *)

Lemma repeat_snoc {A : Type} (x : A) (k : nat) : repeat x (S k) = (repeat x k ++ [x])%list.
Proof. induction k as [|k IH]; [reflexivity|]. simpl in *. rewrite <- IH. reflexivity. Qed.

Lemma run_repeat_snoc (s : state) (e : event) (k : nat) :
  run s (repeat e (S k)) = step (run s (repeat e k)) e.
Proof. rewrite repeat_snoc, run_app. reflexivity. Qed.

Lemma arrow_up_presses (s : state) (k : nat) :
  page_reloaded s = false -> history_index s = (-1)%Z ->
  let cs := commands (history s) in
  (k < length cs)%nat ->
  let s' := run s (repeat KeyArrowUp (S k)) in
  history s' = history s /\ page_reloaded s' = false /\
  history_index s' = Z.of_nat (length cs - S k) /\
  current_input s' = nth (length cs - S k) cs "".
Proof.
  intros Hlive Hidx cs. induction k as [|k IH]; intros Hk s'; subst s'.
  - simpl. rewrite step_live by exact Hlive. unfold arrow_up. fold cs. cbv zeta.
    destruct (Z.eqb_spec (Z.of_nat (length cs)) 0); [lia|].
    rewrite Hidx. simpl. repeat split; [exact Hlive|lia|].
    f_equal. lia.
  - destruct (IH ltac:(lia)) as [Hh [Hl [Hi Hc]]].
    rewrite run_repeat_snoc.
    set (t := run s (repeat KeyArrowUp (S k))) in *.
    rewrite step_live by exact Hl. unfold arrow_up. rewrite Hh. fold cs. cbv zeta.
    destruct (Z.eqb_spec (Z.of_nat (length cs)) 0); [lia|].
    destruct (Z.eqb_spec (history_index t) (-1)); [lia|].
    destruct (Z.gtb_spec (history_index t) 0); [|lia].
    simpl. rewrite Hh. fold cs. repeat split; [exact Hl|lia|].
    f_equal. lia.
Qed.

(** C3: with [N >= 1] non-empty commands in the history and the cursor
    at [-1], [N] presses of ArrowUp load the oldest command (cursor [0]);
    an [(N+1)]-th press leaves the whole state unchanged. *)
Theorem arrow_up_reaches_oldest (s : state) :
  page_reloaded s = false -> history_index s = (-1)%Z ->
  (1 <= length (commands (history s)))%nat ->
  let N := length (commands (history s)) in
  let sN := run s (repeat KeyArrowUp N) in
  current_input sN = nth 0 (commands (history s)) "" /\
  history_index sN = 0%Z /\
  run s (repeat KeyArrowUp (S N)) = sN.
Proof.
  intros Hlive Hidx HN. cbv zeta.
  remember (length (commands (history s))) as N eqn:EN.
  destruct N as [|k]; [lia|].
  destruct (arrow_up_presses s k Hlive Hidx ltac:(lia)) as [Hh [Hl [Hi Hc]]].
  cbv zeta in Hh, Hl, Hi, Hc. rewrite <- EN, Nat.sub_diag in Hi, Hc.
  split; [exact Hc|]. split; [exact Hi|].
  rewrite run_repeat_snoc.
  set (t := run s (repeat KeyArrowUp (S k))) in *.
  rewrite step_live by exact Hl. unfold arrow_up. rewrite Hi. cbv zeta.
  destruct (Z.eqb (Z.of_nat (length (commands (history t)))) 0); reflexivity.
Qed.

Lemma arrow_up_reaches_oldest_witness :
  let s := initial_state [mk_entry "help" HELP_TEXT 0; mk_entry "" HELP_TEXT 1;
                          mk_entry "date" "1/1/2025" 2] in
  current_input (run s (repeat KeyArrowUp 2)) = "help" /\
  run s (repeat KeyArrowUp 3) = run s (repeat KeyArrowUp 2).
Proof.
  cbv zeta.
  destruct (arrow_up_reaches_oldest
              (initial_state [mk_entry "help" HELP_TEXT 0; mk_entry "" HELP_TEXT 1;
                              mk_entry "date" "1/1/2025" 2])
              eq_refl eq_refl ltac:(vm_compute; lia)) as [Hc [_ Hs]].
  split; [exact Hc|exact Hs].
Defined.

(** ** Order of the entries of overlapping submissions *)

Lemma enter_await (s : state) (now : Z) (d t : string) :
  page_reloaded s = false ->
  execute_command (history s) (callback_version s) d (current_input s) = Await t ->
  step s (KeyEnter now d)
  = set_index (set_input (set_pending s (pending s ++ [(next_call s, t)]) (S (next_call s))) "") (-1).
Proof.
  intros Hlive Hx. rewrite step_live by exact Hlive. unfold run_execute. rewrite Hx. reflexivity.
Qed.

Lemma enter_append (s : state) (now : Z) (d c o : string) :
  page_reloaded s = false ->
  execute_command (history s) (callback_version s) d (current_input s) = Append c o ->
  step s (KeyEnter now d)
  = set_index (set_input (set_history s (history s ++ [mk_entry c o now])) "") (-1).
Proof.
  intros Hlive Hx. rewrite step_live by exact Hlive. unfold run_execute. rewrite Hx. reflexivity.
Qed.

Lemma settle_facts (s : state) (call : nat) (c : string) (rest : list (nat * string))
    (r : axios_settle) (now : Z) :
  page_reloaded s = false ->
  take_pending call (pending s) = Some (c, rest) ->
  page_reloaded (step s (Settle call r now)) = false /\
  pending (step s (Settle call r now)) = rest /\
  history (step s (Settle call r now)) = (history s ++ [mk_entry c (remote_output r) now])%list.
Proof.
  intros Hlive Ht. rewrite step_live by exact Hlive. rewrite Ht.
  split; [exact Hlive|]. split; reflexivity.
Qed.

(** C1 counterexample: ["uptime"] and then ["weather London"] are both
    sent to the backend; the second call settles first and its entry is
    appended first.  Likewise a local ["date"] submitted while
    ["weather London"] is in flight is appended before it. *)
Lemma completion_order_not_submission_order :
  map command
    (history (run (initial_state [])
      [Change "uptime"; KeyEnter 1 "d"; Change "weather London"; KeyEnter 2 "d";
       Settle 1 (Fulfilled (Some "Sunny") None) 3;
       Settle 0 (Fulfilled (Some "up 3 days") None) 4]))
  = ["weather London"; "uptime"] /\
  map command
    (history (run (initial_state [])
      [Change "weather London"; KeyEnter 1 "d"; Change "date"; KeyEnter 2 "1/1/2025";
       Settle 0 (Fulfilled (Some "Sunny") None) 3]))
  = ["date"; "weather London"].
Proof. split; vm_compute; reflexivity. Qed.

(** C1 (as the code has it): entries are appended in the order in
    which the outputs become available, always at the end of the
    history.  For a remote line [x1] followed, before it settles, by a
    line [x2]: if [x2] is remote too, the two entries are appended in the
    order the two calls settle; if [x2] is local, its entry is appended
    at once, before that of [x1]. *)
Theorem entries_follow_completion_order (s : state) (x1 x2 t1 t2 : string)
    (n1 n2 : Z) (d1 d2 : string) :
  page_reloaded s = false ->
  fresh_calls s ->
  execute_command (history s) (callback_version s) d1 x1 = Await t1 ->
  let s2 := run s [Change x1; KeyEnter n1 d1; Change x2; KeyEnter n2 d2] in
  let id1 := next_call s in
  let id2 := S (next_call s) in
  (execute_command (history s) (callback_version s) d2 x2 = Await t2 ->
     history s2 = history s /\
     forall r1 r2 m1 m2,
       history (run s2 [Settle id1 r1 m1; Settle id2 r2 m2])
         = (history s ++ [mk_entry t1 (remote_output r1) m1;
                          mk_entry t2 (remote_output r2) m2])%list /\
       history (run s2 [Settle id2 r2 m2; Settle id1 r1 m1])
         = (history s ++ [mk_entry t2 (remote_output r2) m2;
                          mk_entry t1 (remote_output r1) m1])%list) /\
  (forall o2, execute_command (history s) (callback_version s) d2 x2 = Append t2 o2 ->
     history s2 = (history s ++ [mk_entry t2 o2 n2])%list /\
     forall r1 m1,
       history (run s2 [Settle id1 r1 m1])
         = (history s ++ [mk_entry t2 o2 n2; mk_entry t1 (remote_output r1) m1])%list).
Proof.
  intros Hlive Hfresh Hx1 s2 id1 id2.
  assert (E1 : step (step s (Change x1)) (KeyEnter n1 d1)
               = set_index (set_input (set_pending (set_input s x1)
                   (pending s ++ [(next_call s, t1)]) (S (next_call s))) "") (-1))
    by (rewrite (step_live s (Change x1) Hlive); cbv beta iota;
        apply (enter_await (set_input s x1)); assumption).
  set (s1 := step (step s (Change x1)) (KeyEnter n1 d1)) in *.
  assert (Hs2 : s2 = step (step s1 (Change x2)) (KeyEnter n2 d2)) by reflexivity.
  assert (Hl1 : page_reloaded s1 = false) by (rewrite E1; exact Hlive).
  assert (Hfresh2 : Forall (fun q => (fst q < S (next_call s))%nat) (pending s)).
  { eapply Forall_impl; [|exact Hfresh]. intros q Hq. simpl in Hq. lia. }
  split.
  - intros Hx2.
    assert (E2 : s2 = set_index (set_input (set_pending (set_input s1 x2)
                   (pending s1 ++ [(next_call s1, t2)]) (S (next_call s1))) "") (-1)).
    { rewrite Hs2, (step_live s1 (Change x2) Hl1); cbv beta iota.
      apply (enter_await (set_input s1 x2)); [exact Hl1|].
      rewrite E1. exact Hx2. }
    assert (Hl2 : page_reloaded s2 = false) by (rewrite E2, E1; exact Hlive).
    assert (Hp2 : pending s2 = (pending s ++ [(id1, t1); (id2, t2)])%list)
      by (rewrite E2, E1; simpl; rewrite <- app_assoc; reflexivity).
    assert (Hh2 : history s2 = history s) by (rewrite E2, E1; reflexivity).
    split; [exact Hh2|].
    intros r1 r2 m1 m2. unfold run. simpl fold_left. split.
    + assert (Ht1 : take_pending id1 (pending s2) = Some (t1, (pending s ++ [(id2, t2)])%list)).
      { rewrite Hp2. subst id1 id2. revert Hfresh. clear. unfold fresh_calls.
        induction (pending s) as [|[i c] p IH]; intros Hf.
        - simpl. rewrite Nat.eqb_refl. reflexivity.
        - inversion Hf as [|? ? Hi Hr]; subst. simpl in Hi. simpl.
          destruct (Nat.eqb_spec i (next_call s)) as [->|_]; [lia|].
          rewrite IH by exact Hr. reflexivity. }
      destruct (settle_facts s2 id1 t1 _ r1 m1 Hl2 Ht1) as [Hl3 [Hp3 Hh3]].
      destruct (settle_facts _ id2 t2 (pending s) r2 m2 Hl3) as [_ [_ Hh4]].
      { rewrite Hp3. apply take_pending_last, Hfresh2. }
      rewrite Hh4, Hh3, Hh2, <- app_assoc. reflexivity.
    + assert (Ht2 : take_pending id2 (pending s2) = Some (t2, (pending s ++ [(id1, t1)])%list)).
      { rewrite Hp2. change [(id1, t1); (id2, t2)] with ([(id1, t1)] ++ [(id2, t2)])%list.
        rewrite app_assoc, take_pending_last; [reflexivity|].
        apply Forall_app. split; [exact Hfresh2|]. constructor; [simpl; lia|constructor]. }
      destruct (settle_facts s2 id2 t2 _ r2 m2 Hl2 Ht2) as [Hl3 [Hp3 Hh3]].
      destruct (settle_facts _ id1 t1 (pending s) r1 m1 Hl3) as [_ [_ Hh4]].
      { rewrite Hp3. apply take_pending_last, Hfresh. }
      rewrite Hh4, Hh3, Hh2, <- app_assoc. reflexivity.
  - intros o2 Hx2.
    assert (E2 : s2 = set_index (set_input (set_history (set_input s1 x2)
                   (history s1 ++ [mk_entry t2 o2 n2])) "") (-1)).
    { rewrite Hs2, (step_live s1 (Change x2) Hl1); cbv beta iota.
      apply (enter_append (set_input s1 x2)); [exact Hl1|].
      rewrite E1. exact Hx2. }
    assert (Hl2 : page_reloaded s2 = false) by (rewrite E2, E1; exact Hlive).
    assert (Hp2 : pending s2 = (pending s ++ [(id1, t1)])%list) by (rewrite E2, E1; reflexivity).
    assert (Hh2 : history s2 = (history s ++ [mk_entry t2 o2 n2])%list)
      by (rewrite E2, E1; reflexivity).
    split; [exact Hh2|].
    intros r1 m1. unfold run. simpl fold_left.
    destruct (settle_facts s2 id1 t1 (pending s) r1 m1 Hl2) as [_ [_ Hh3]].
    { rewrite Hp2. apply take_pending_last, Hfresh. }
    rewrite Hh3, Hh2, <- app_assoc. reflexivity.
Qed.

Lemma entries_follow_completion_order_witness :
  history (run (run (initial_state [])
                  [Change "uptime"; KeyEnter 1 "d"; Change "weather London"; KeyEnter 2 "d"])
             [Settle 1 (Fulfilled (Some "Sunny") None) 3;
              Settle 0 (Fulfilled (Some "up 3 days") None) 4])
  = [mk_entry "weather London" "Sunny" 3; mk_entry "uptime" "up 3 days" 4].
Proof.
  destruct (entries_follow_completion_order (initial_state []) "uptime" "weather London"
              "uptime" "weather London" 1 2 "d" "d" eq_refl (Forall_nil _) eq_refl)
    as [H _].
  destruct (H eq_refl) as [_ Hord].
  exact (proj2 (Hord (Fulfilled (Some "up 3 days") None) (Fulfilled (Some "Sunny") None)
                     4%Z 3%Z)).
Defined.

(** C9 (spec-modelled backend): without a configured default location,
    the command ["weather"] is answered, as a successful result, with
    exactly the two lines "Usage: weather [location]" and
    "Example: weather London"; the frontend sends the line to the backend
    and shows that text as the entry's output. *)
Theorem weather_without_location_usage (cfg : Backend.config)
    (fetch other : string -> Backend.result) :
  Backend.default_weather_location cfg = None ->
  (7 <= Backend.max_command_length cfg)%nat ->
  let u := "Usage: weather [location]" ++ newline ++ "Example: weather London" in
  Backend.execute cfg fetch other "weather" = Backend.Success u /\
  (forall h v d, execute_command h v d "weather" = Await "weather") /\
  Backend.to_response (Backend.Success u) = Some (Fulfilled (Some u) None) /\
  remote_output (Fulfilled (Some u) None) = u.
Proof.
  intros Hdef Hcap u. split; [|split; [|split]].
  - unfold Backend.execute.
    destruct (Nat.ltb_spec (Backend.max_command_length cfg) (String.length "weather"));
      [simpl in *; lia|].
    simpl. rewrite Hdef. reflexivity.
  - intros h v d. reflexivity.
  - reflexivity.
  - reflexivity.
Qed.

Lemma weather_without_location_usage_witness :
  Backend.execute (Backend.mk_config None 1000) (fun _ => Backend.Failure "unreachable")
    (fun _ => Backend.Failure "unknown") "weather"
  = Backend.Success (Backend.usage "weather").
Proof.
  destruct (weather_without_location_usage (Backend.mk_config None 1000)
              (fun _ => Backend.Failure "unreachable") (fun _ => Backend.Failure "unknown")
              eq_refl ltac:(simpl; lia)) as [H _].
  exact H.
Defined.

(** ** Persistence round trip *)

Module PersistFacts.

Import Persist.


Lemma sapp_assoc (a b c : string) : (a ++ b) ++ c = a ++ (b ++ c).
Proof. induction a as [|x a IH]; [reflexivity|]. simpl. rewrite IH. reflexivity. Qed.

Lemma parse_digits_snoc (k : nat) (acc : Z) (s : string) :
  parse_digits (S k) acc s =
  match parse_digits k acc s with
  | Some (v, String c r) =>
      if is_digit c then Some ((v * 10 + Z.of_nat (nat_of_ascii c - 48))%Z, r) else None
  | _ => None
  end.
Proof.
  revert acc s; induction k as [|k IH]; intros acc s.
  - destruct s; reflexivity.
  - destruct s as [|c r]; [reflexivity|].
    change (parse_digits (S (S k)) acc (String c r))
      with (if is_digit c then parse_digits (S k) (acc * 10 + Z.of_nat (nat_of_ascii c - 48))%Z r else None).
    change (parse_digits (S k) acc (String c r))
      with (if is_digit c then parse_digits k (acc * 10 + Z.of_nat (nat_of_ascii c - 48))%Z r else None).
    destruct (is_digit c); [apply IH|reflexivity].
Qed.

Lemma digit_char (n : Z) : (0 <= n < 10)%Z ->
  is_digit (ascii_of_nat (48 + Z.to_nat n)) = true /\
  Z.of_nat (nat_of_ascii (ascii_of_nat (48 + Z.to_nat n)) - 48) = n.
Proof.
  intros Hn. rewrite nat_ascii_embedding by lia. split.
  - unfold is_digit. rewrite nat_ascii_embedding by lia.
    apply andb_true_intro; split; apply Nat.leb_le; lia.
  - lia.
Qed.

Lemma parse_pad (k : nat) (n acc : Z) (rest : string) :
  (0 <= n < 10 ^ Z.of_nat k)%Z ->
  parse_digits k acc (pad_dec k n ++ rest) = Some ((acc * 10 ^ Z.of_nat k + n)%Z, rest).
Proof.
  revert n rest; induction k as [|k IH]; intros n rest Hn.
  - simpl in *. f_equal. f_equal. lia.
  - cbn [pad_dec]. rewrite sapp_assoc. cbn [append].
    rewrite parse_digits_snoc.
    rewrite Nat2Z.inj_succ, Z.pow_succ_r in Hn by lia.
    rewrite IH by (split; [apply Z.div_pos|apply Z.div_lt_upper_bound]; lia).
    destruct (digit_char (n mod 10)) as [Hd Hv]; [apply Z.mod_pos_bound; lia|].
    rewrite Hd, Hv. f_equal. f_equal.
    rewrite Nat2Z.inj_succ, Z.pow_succ_r by lia.
    pose proof (Z.div_mod n 10). lia.
Qed.

Lemma pad_dec_head (k : nat) (n : Z) :
  exists c r, pad_dec (S k) n = String c r /\ is_digit c = true.
Proof.
  revert n; induction k as [|k IH]; intros n.
  - destruct (digit_char (n mod 10)) as [Hd _]; [apply Z.mod_pos_bound; lia|].
    eexists _, EmptyString. split; [reflexivity|exact Hd].
  - destruct (IH (n / 10)%Z) as (c & r & Hp & Hc).
    cbn [pad_dec] in *. rewrite Hp. eexists c, _. split; [reflexivity|exact Hc].
Qed.

Lemma digit_not_sign (c : ascii) : is_digit c = true ->
  Ascii.eqb c "+" = false /\ Ascii.eqb c "-" = false.
Proof.
  intros H. split.
  - destruct (Ascii.eqb_spec c "+"); [subst; discriminate H|reflexivity].
  - destruct (Ascii.eqb_spec c "-"); [subst; discriminate H|reflexivity].
Qed.

Ltac pad_bound :=
  match goal with
  | |- (_ <= _ < 10 ^ Z.of_nat ?k)%Z =>
      let v := eval vm_compute in (10 ^ Z.of_nat k)%Z in change (10 ^ Z.of_nat k)%Z with v
  end;
  unfold msPerDay in *; Z.div_mod_to_equations; lia.

Lemma parse_pad0 (k : nat) (n : Z) (rest : string) :
  (0 <= n < 10 ^ Z.of_nat k)%Z ->
  parse_digits k 0 (pad_dec k n ++ rest) = Some (n, rest).
Proof. intros H. rewrite parse_pad by exact H. reflexivity. Qed.

Lemma parse_year_string (y : Z) (rest : string) :
  (-999999 <= y <= 999999)%Z ->
  parse_year (year_string y ++ rest) = Some (y, rest).
Proof.
  intros Hy. unfold year_string.
  destruct (Z.leb_spec 0 y), (Z.leb_spec y 9999); cbn [andb].
  - destruct (pad_dec_head 3 y) as (c & r & Hp & Hc).
    destruct (digit_not_sign c Hc) as [H1 H2].
    unfold parse_year. rewrite <- (parse_pad0 4 y rest) by pad_bound.
    change (S 3) with 4%nat in Hp. rewrite Hp. cbn [append]. rewrite H1, H2. reflexivity.
  - destruct (Z.ltb_spec y 0); [lia|]. rewrite sapp_assoc. cbn [append parse_year Ascii.eqb Bool.eqb].
    rewrite parse_pad0 by pad_bound. f_equal. f_equal. lia.
  - destruct (Z.ltb_spec y 0); [|lia]. rewrite sapp_assoc. cbn [append parse_year Ascii.eqb Bool.eqb].
    rewrite parse_pad0 by pad_bound.
    destruct (Z.eqb_spec (Z.abs y) 0); [lia|]. f_equal. f_equal. lia.
  - lia.
Qed.

Section Calendar.

Local Open Scope Z_scope.

Lemma civil_roundtrip (z : Z) :
  let '(y, m, d) := civil_from_days z in
  days_from_civil y m d = z /\ 1 <= m <= 12 /\ 1 <= d <= 31 /\
  (Z.abs z <= 100000000 -> -999999 <= y <= 999999).
Proof.
  unfold civil_from_days.
  set (era := (z + 719468) / 146097).
  set (doe := z + 719468 - era * 146097).
  set (yoe := (doe - doe / 1460 + doe / 36524 - doe / 146096) / 365).
  set (doy := doe - (365 * yoe + yoe / 4 - yoe / 100)).
  set (mp := (5 * doy + 2) / 153).
  assert (Hdoe : 0 <= doe <= 146096) by (subst doe era; Z.div_mod_to_equations; lia).
  assert (Hyoe : 0 <= yoe <= 399) by (subst yoe; Z.div_mod_to_equations; lia).
  assert (Hdoy : 0 <= doy <= 365) by (subst doy yoe; clearbody doe; Z.div_mod_to_equations; lia).
  assert (Hmp : 0 <= mp <= 11) by (subst mp; Z.div_mod_to_equations; lia).
  assert (Hd : 1 <= doy - (153 * mp + 2) / 5 + 1 <= 31) by (subst mp; clearbody doy; Z.div_mod_to_equations; lia).
  unfold days_from_civil.
  destruct (Z.ltb_spec mp 10) as [Hlt|Hge].
  - destruct (Z.leb_spec (mp + 3) 2); [lia|].
    destruct (Z.leb_spec (mp + 3) 2); [lia|].
    destruct (Z.gtb_spec (mp + 3) 2); [|lia].
    replace (mp + 3 - 3) with mp by lia.
    assert (He : (yoe + era * 400) / 400 = era) by (Z.div_mod_to_equations; lia).
    rewrite He. split; [|split; [lia|split; [lia|]]].
    + replace (yoe + era * 400 - era * 400) with yoe by lia.
      replace ((153 * mp + 2) / 5 + (doy - (153 * mp + 2) / 5 + 1) - 1) with doy by lia.
      subst doy doe. lia.
    + intros Hz. subst yoe doe era. clearbody mp doy. Z.div_mod_to_equations. lia.
  - destruct (Z.leb_spec (mp - 9) 2); [|lia].
    destruct (Z.leb_spec (mp - 9) 2); [|lia].
    destruct (Z.gtb_spec (mp - 9) 2); [lia|].
    replace (mp - 9 + 9) with mp by lia.
    replace (yoe + era * 400 + 1 - 1) with (yoe + era * 400) by lia.
    assert (He : (yoe + era * 400) / 400 = era) by (Z.div_mod_to_equations; lia).
    rewrite He. split; [|split; [lia|split; [lia|]]].
    + replace (yoe + era * 400 - era * 400) with yoe by lia.
      replace ((153 * mp + 2) / 5 + (doy - (153 * mp + 2) / 5 + 1) - 1) with doy by lia.
      subst doy doe. lia.
    + intros Hz. subst yoe doe era. clearbody mp doy. Z.div_mod_to_equations. lia.
Qed.

Lemma iso_roundtrip (t : Z) : (Z.abs t <= max_time)%Z ->
  exists iso, to_iso_string t = Some iso /\ parse_iso iso = Some t.
Proof.
  intros Ht. unfold to_iso_string.
  destruct (Z.ltb_spec max_time (Z.abs t)); [lia|].
  pose proof (civil_roundtrip (t / msPerDay)) as Hc.
  destruct (civil_from_days (t / msPerDay)) as [[y m] d].
  destruct Hc as (Hday & Hm & Hd & Hy).
  assert (Hy' : (-999999 <= y <= 999999)%Z).
  { apply Hy. unfold msPerDay, max_time in *. Z.div_mod_to_equations. lia. }
  eexists. split; [reflexivity|].
  unfold parse_iso. rewrite parse_year_string by exact Hy'. cbn [append expect Ascii.eqb Bool.eqb].
  set (ms := (t mod msPerDay)%Z).
  assert (Hms : (0 <= ms < 86400000)%Z) by (apply Z.mod_pos_bound; reflexivity).
  rewrite parse_pad0 by pad_bound. cbn [append expect Ascii.eqb Bool.eqb].
  rewrite parse_pad0 by pad_bound. cbn [append expect Ascii.eqb Bool.eqb].
  rewrite parse_pad0 by pad_bound. cbn [append expect Ascii.eqb Bool.eqb].
  rewrite parse_pad0 by pad_bound. cbn [append expect Ascii.eqb Bool.eqb].
  rewrite parse_pad0 by pad_bound. cbn [append expect Ascii.eqb Bool.eqb].
  rewrite parse_pad0 by pad_bound. cbn [append expect Ascii.eqb Bool.eqb].
  cbn [String.eqb negb Ascii.eqb Bool.eqb].
  assert (Hrec : (ms / 3600000 * 3600000 + (ms / 60000) mod 60 * 60000
                  + (ms / 1000) mod 60 * 1000 + ms mod 1000) = ms)
    by (clearbody ms; Z.div_mod_to_equations; lia).
  assert (Hh : 0 <= ms / 3600000 <= 23) by (clearbody ms; Z.div_mod_to_equations; lia).
  assert (Hmi : 0 <= (ms / 60000) mod 60 < 60) by (apply Z.mod_pos_bound; lia).
  assert (Hs : 0 <= (ms / 1000) mod 60 < 60) by (apply Z.mod_pos_bound; lia).
  assert (Ht' : days_from_civil y m d * msPerDay + ms = t)
    by (rewrite Hday; subst ms; pose proof (Z.div_mod t msPerDay); unfold msPerDay in *; lia).
  rewrite Hrec, Ht'.
  repeat match goal with
  | |- context [?a <=? ?b] =>
      let E := fresh in destruct (Z.leb_spec a b) as [E|E]; [|exfalso; lia]
  end.
  destruct (Z.eqb_spec (ms / 3600000) 24); [lia|].
  destruct (Z.ltb_spec max_time (Z.abs t)); [lia|].
  reflexivity.
Qed.

End Calendar.



Lemma parse_escape_char (c : ascii) (X : string) :
  parse_string_body (escape_char c ++ X) =
  match parse_string_body X with
  | Some (b, r) => Some (String c b, r)
  | None => None
  end.
Proof. destruct c as [[] [] [] [] [] [] [] []]; reflexivity. Qed.

Lemma parse_escape (s rest : string) :
  parse_string_body (escape s ++ String (ascii_of_nat 34) rest) = Some (s, rest).
Proof.
  induction s as [|c s IH]; [reflexivity|].
  cbn [escape]. rewrite sapp_assoc, parse_escape_char, IH. reflexivity.
Qed.

Lemma quote_app (s rest : string) :
  quote s ++ rest = String (ascii_of_nat 34) (escape s ++ String (ascii_of_nat 34) rest).
Proof. unfold quote, dquote, chr. rewrite sapp_assoc. cbn [append]. rewrite sapp_assoc. reflexivity. Qed.

Lemma parse_entry_object (g : nat) (c o i r : string) : (5 <= g)%nat ->
  parse_value g (stringify (JObj [("command", JStr c); ("output", JStr o); ("timestamp", JStr i)]) ++ r)
  = Some (JObj [("command", JStr c); ("output", JStr o); ("timestamp", JStr i)], r).
Proof.
  intros Hg. do 5 (destruct g as [|g]; [lia|]).
  cbn [stringify map fst snd join]. repeat rewrite sapp_assoc.
  rewrite !quote_app. simpl. rewrite parse_escape. simpl. rewrite parse_escape. simpl. rewrite parse_escape. simpl. reflexivity. Qed.

Lemma parse_elements_ok (l : list json) (f : nat) (rest : string) :
  l <> [] ->
  (forall v, In v l -> forall g r, (5 <= g)%nat -> parse_value g (stringify v ++ r) = Some (v, r)) ->
  (length l + 5 <= f)%nat ->
  parse_elements f (join "," (map stringify l) ++ String "]" rest) = Some (l, rest).
Proof.
  revert f rest; induction l as [|v l IH]; intros f rest Hne Hv Hf; [congruence|].
  destruct f as [|f]; [simpl in Hf; lia|].
  destruct l as [|w l].
  - cbn [map join parse_elements]. rewrite Hv by (simpl in *; auto; lia). reflexivity.
  - cbn [map join parse_elements]. rewrite !sapp_assoc.
    set (J := join "," (stringify w :: map stringify l)).
    rewrite Hv by (simpl in *; auto; lia). simpl.
    subst J. change (stringify w :: map stringify l) with (map stringify (w :: l)).
    rewrite IH; [reflexivity|congruence| |simpl in *; lia].
    intros u Hu. apply Hv. right. exact Hu.
Qed.

Lemma slength_app (a b : string) : String.length (a ++ b) = (String.length a + String.length b)%nat.
Proof. induction a as [|x a IH]; simpl; [reflexivity|]. rewrite IH. reflexivity. Qed.

Lemma join_length (l : list string) (k : nat) :
  Forall (fun x => k <= String.length x)%nat l ->
  (k * length l <= String.length (join "," l))%nat.
Proof.
  induction 1 as [|x l Hx Hl IH]; [simpl; lia|].
  destruct l as [|y l].
  - simpl. lia.
  - change (join "," (x :: y :: l)) with (x ++ "," ++ join "," (y :: l)).
    rewrite !slength_app. simpl length in *. change (String.length ",") with 1%nat. nia.
Qed.

Lemma json_parse_array (l : list json) :
  (forall v, In v l -> (6 <= String.length (stringify v))%nat /\
     (exists r0, stringify v = String "{" r0) /\
     forall g r, (5 <= g)%nat -> parse_value g (stringify v ++ r) = Some (v, r)) ->
  json_parse (stringify (JArr l)) = Some (JArr l).
Proof.
  intros Hv. destruct l as [|v l]; [reflexivity|].
  assert (Hlen : (6 * length (map stringify (v :: l))
                  <= String.length (join "," (map stringify (v :: l))))%nat).
  { apply join_length. apply Forall_forall. intros x Hx.
    apply in_map_iff in Hx. destruct Hx as (u & <- & Hu). apply (Hv u Hu). }
  rewrite length_map in Hlen.
  assert (HJ : exists r1, join "," (map stringify (v :: l)) = String "{" r1).
  { destruct (Hv v (or_introl eq_refl)) as (_ & (r0 & Hr0) & _).
    destruct l; simpl; rewrite Hr0; eexists; reflexivity. }
  unfold json_parse. cbn [stringify].
  remember (join "," (map stringify (v :: l))) as J eqn:HJdef.
  destruct HJ as (r1 & HJ).
  change ("[" ++ J ++ "]") with (String "[" (J ++ "]")).
  replace (String.length (String "[" (J ++ "]"))) with (S (S (String.length J)))
    by (cbn [String.length]; rewrite slength_app; simpl; lia).
  remember (S (S (String.length J))) as F eqn:HF.
  assert (Hws : skip_ws (J ++ "]") = J ++ "]") by (rewrite HJ; reflexivity).
  assert (Hst : starts_with_char 93 (J ++ "]") = false) by (rewrite HJ; reflexivity).
  simpl. rewrite Hws, Hst. subst J.
  rewrite parse_elements_ok; [reflexivity|congruence| |simpl in *; lia].
  intros u Hu. apply (Hv u Hu).
Qed.

Lemma entry_codec (e : entry) : (Z.abs (timestamp e) <= max_time)%Z ->
  exists v, serialize_entry e = Some v /\ deserialize_entry v = Some e /\
    (6 <= String.length (stringify v))%nat /\
    (exists r0, stringify v = String "{" r0) /\
    forall g r, (5 <= g)%nat -> parse_value g (stringify v ++ r) = Some (v, r).
Proof.
  intros He. destruct (iso_roundtrip _ He) as (iso & Hi & Hp).
  unfold serialize_entry. rewrite Hi. eexists. split; [reflexivity|].
  split; [|split; [|split]].
  - unfold deserialize_entry. simpl. rewrite Hp. destruct e; reflexivity.
  - simpl. lia.
  - eexists. reflexivity.
  - intros g r Hg. apply parse_entry_object. exact Hg.
Qed.

Lemma traverse_codec (h : list entry) :
  Forall (fun e => Z.abs (timestamp e) <= max_time)%Z h ->
  exists l, traverse serialize_entry h = Some l /\ traverse deserialize_entry l = Some h /\
    forall v, In v l -> (6 <= String.length (stringify v))%nat /\
      (exists r0, stringify v = String "{" r0) /\
      forall g r, (5 <= g)%nat -> parse_value g (stringify v ++ r) = Some (v, r).
Proof.
  induction 1 as [|e h He Hh IH]; [exists []; simpl; tauto|].
  destruct IH as (l & Hs & Hd & Hl).
  destruct (entry_codec e He) as (v & Hsv & Hdv & Hv).
  exists (v :: l). simpl. rewrite Hs, Hsv, Hdv, Hd. split; [reflexivity|split; [reflexivity|]].
  intros u [<-|Hu]; [exact Hv|exact (Hl u Hu)].
Qed.

(** C7: for every history whose time values are those of valid dates
    (at most [max_time] in absolute value), the persist effect writes a
    text (every [toISOString] succeeds) and the load effect reads it back
    as the same list: each entry's command, output and time value are
    equal to the original ones. *)
Theorem persist_load_roundtrip (h : list entry) :
  Forall (fun e => Z.abs (timestamp e) <= max_time)%Z h ->
  exists text, persist h = Some text /\ load (Some text) = Some h.
Proof.
  intros Hh. destruct (traverse_codec h Hh) as (l & Hs & Hd & Hl).
  unfold persist. rewrite Hs. eexists. split; [reflexivity|].
  unfold load. cbn [stringify append String.eqb]. 
  change (String "[" (join "," (map stringify l) ++ "]")) with (stringify (JArr l)).
  rewrite json_parse_array by exact Hl. exact Hd.
Qed.

Lemma persist_load_roundtrip_witness :
  Forall (fun e => Z.abs (timestamp e) <= max_time)%Z
    [mk_entry "echo hi" "hi" 1700000000000%Z; mk_entry "date" ("a" ++ dquote ++ newline) (-5)%Z] /\
  exists text,
    persist [mk_entry "echo hi" "hi" 1700000000000%Z; mk_entry "date" ("a" ++ dquote ++ newline) (-5)%Z]
      = Some text /\
    load (Some text)
      = Some [mk_entry "echo hi" "hi" 1700000000000%Z; mk_entry "date" ("a" ++ dquote ++ newline) (-5)%Z].
Proof.
  assert (H : Forall (fun e => Z.abs (timestamp e) <= max_time)%Z
    [mk_entry "echo hi" "hi" 1700000000000%Z; mk_entry "date" ("a" ++ dquote ++ newline) (-5)%Z])
    by (repeat constructor; vm_compute; discriminate).
  split; [exact H|]. apply persist_load_roundtrip. exact H.
Defined.

End PersistFacts.

(** ** Further properties of the page *)

Lemma trim_end_idem (s : string) : trim_end (trim_end s) = trim_end s.
Proof.
  induction s as [|c r IH]; [reflexivity|].
  cbn [trim_end]. destruct (String.eqb (trim_end r) "" && is_js_space c) eqn:E.
  - reflexivity.
  - cbn [trim_end]. rewrite IH, E. reflexivity.
Qed.

Lemma trim_start_nonspace (c : ascii) (r : string) :
  is_js_space c = false -> trim_start (String c r) = String c r.
Proof. intros H. cbn [trim_start]. rewrite H. reflexivity. Qed.

Lemma trim_end_nonspace_head (c : ascii) (r : string) :
  is_js_space c = false -> trim_end (String c r) = String c (trim_end r).
Proof. intros H. cbn [trim_end]. rewrite H, andb_false_r. reflexivity. Qed.

Lemma trim_start_head (s : string) :
  trim_start s = "" \/ exists c r, trim_start s = String c r /\ is_js_space c = false.
Proof.
  induction s as [|c r IH]; [left; reflexivity|].
  cbn [trim_start]. destruct (is_js_space c) eqn:E; [exact IH|].
  right. exists c, r. split; [reflexivity|exact E].
Qed.

Lemma js_trim_idem (s : string) : js_trim (js_trim s) = js_trim s.
Proof.
  unfold js_trim. destruct (trim_start_head s) as [H|(c & r & H & Hc)].
  - rewrite H. reflexivity.
  - rewrite H, trim_end_nonspace_head by exact Hc.
    rewrite trim_start_nonspace by exact Hc.
    rewrite <- (trim_end_nonspace_head c r Hc), trim_end_idem. reflexivity.
Qed.

(** X1: [executeCommand] treats a line and its trimmed text alike:
    submitting [cmd] or [cmd.trim()] gives the same outcome (same entry,
    same clear, reload or backend call). *)
Theorem execute_command_trim_invariant (h : list entry) (v : option string) (d cmd : string) :
  execute_command h v d (js_trim cmd) = execute_command h v d cmd.
Proof. unfold execute_command. rewrite js_trim_idem. reflexivity. Qed.

(** X2: a line reaches the backend exactly when its trimmed text is
    not empty, is none of the local command names ([clear], [help],
    [date], [whoami], [ls], [pwd], [history], [neofetch], [about],
    [exit]) and does not start with ["echo "]; what is sent is the trimmed
    text. *)
Theorem execute_command_remote_iff (h : list entry) (v : option string) (d cmd t : string) :
  execute_command h v d cmd = Await t <->
  t = js_trim cmd /\
  ~ In t [""; "clear"; "help"; "date"; "whoami"; "ls"; "pwd"; "history"; "neofetch"; "about"; "exit"] /\
  starts_with "echo " t = false.
Proof.
  unfold execute_command. set (u := js_trim cmd). split.
  - intros H.
    repeat match type of H with
    | context [if ?b then _ else _] =>
        let E := fresh "E" in destruct b eqn:E; [discriminate H|]
    end.
    injection H as <-. split; [reflexivity|]. split; [|assumption].
    repeat match goal with E : String.eqb _ _ = false |- _ => apply String.eqb_neq in E end.
    simpl. intuition congruence.
  - intros (-> & Hn & He). fold u in Hn, He |- *.
    repeat match goal with
    | |- context [String.eqb u ?lit] =>
        let E := fresh "E" in destruct (String.eqb_spec u lit) as [E|E];
        [exfalso; apply Hn; rewrite E; simpl; tauto|]
    end.
    rewrite He. reflexivity.
Qed.

Lemma trim_start_spaces (w s : string) :
  Forall (fun c => is_js_space c = true) (list_ascii_of_string w) ->
  trim_start (w ++ s) = trim_start s.
Proof.
  induction w as [|c w IH]; intros H; [reflexivity|].
  inversion H as [|? ? Hc Hw]; subst. cbn [append trim_start]. rewrite Hc. apply IH, Hw.
Qed.

Lemma trim_end_spaces (s w : string) :
  Forall (fun c => is_js_space c = true) (list_ascii_of_string w) ->
  trim_end (s ++ w) = trim_end s.
Proof.
  intros H. induction s as [|c r IH].
  - induction w as [|c w IHw]; [reflexivity|].
    inversion H as [|? ? Hc Hw]; subst. cbn [append trim_end].
    simpl append in IHw. rewrite (IHw Hw), Hc. reflexivity.
  - cbn [append trim_end]. rewrite IH. reflexivity.
Qed.

(** X3: ["echo"] with no text, whatever whitespace surrounds it, is
    not handled by the local [echo]: trimming removes the space of the
    ["echo "] prefix, so the line is sent to the backend as ["echo"]. *)
Theorem bare_echo_is_remote (h : list entry) (v : option string) (d w1 w2 : string) :
  Forall (fun c => is_js_space c = true) (list_ascii_of_string w1) ->
  Forall (fun c => is_js_space c = true) (list_ascii_of_string w2) ->
  execute_command h v d (w1 ++ "echo" ++ w2) = Await "echo".
Proof.
  intros H1 H2. unfold execute_command, js_trim.
  rewrite trim_start_spaces by exact H1.
  change ("echo" ++ w2) with (String "e" ("cho" ++ w2)).
  rewrite trim_start_nonspace by reflexivity.
  change (String "e" ("cho" ++ w2)) with ("echo" ++ w2).
  rewrite trim_end_spaces by exact H2. reflexivity.
Qed.

Lemma bare_echo_is_remote_witness :
  execute_command [] None "d" (" " ++ "echo" ++ "   ") = Await "echo".
Proof. apply bare_echo_is_remote; repeat constructor. Defined.
Lemma numbered_lines_length (i : Z) (cs : list string) :
  length (numbered_lines i cs) = length cs.
Proof. revert i; induction cs as [|c cs IH]; intros i; simpl; [reflexivity|]. rewrite IH. reflexivity. Qed.

Lemma numbered_lines_nth (i : Z) (cs : list string) (k : nat) :
  (k < length cs)%nat ->
  nth k (numbered_lines i cs) "" = dec (i + Z.of_nat k + 1) ++ "  " ++ nth k cs "".
Proof.
  revert i k; induction cs as [|c cs IH]; intros i k Hk; [simpl in Hk; lia|].
  destruct k as [|k]; simpl.
  - rewrite Z.add_0_r. reflexivity.
  - rewrite IH by (simpl in Hk; lia). do 2 f_equal. lia.
Qed.

Lemma numbered_lines_snoc (i : Z) (cs : list string) (c : string) :
  numbered_lines i (cs ++ [c]) =
  (numbered_lines i cs ++ [(dec (i + Z.of_nat (length cs) + 1) ++ "  " ++ c)%string])%list.
Proof.
  revert i; induction cs as [|c' cs IH]; intros i; simpl.
  - rewrite Z.add_0_r. reflexivity.
  - rewrite IH. replace (i + 1 + Z.of_nat (length cs) + 1)%Z with (i + Z.of_nat (S (length cs)) + 1)%Z by lia. reflexivity.
Qed.

Lemma join_snoc (sep x : string) (l : list string) :
  l <> [] -> join sep (l ++ [x]) = join sep l ++ sep ++ x.
Proof.
  intros Hl. induction l as [|y l IH]; [congruence|].
  destruct l as [|z l]; [reflexivity|].
  change (join sep ((y :: z :: l) ++ [x])) with (y ++ sep ++ join sep ((z :: l) ++ [x])).
  rewrite IH by congruence.
  change (join sep (y :: z :: l)) with (y ++ sep ++ join sep (z :: l)).
  rewrite !PersistFacts.sapp_assoc. reflexivity.
Qed.

Lemma sapp_nil_r (s : string) : s ++ "" = s.
Proof. induction s as [|c s IH]; [reflexivity|]. simpl. rewrite IH. reflexivity. Qed.

Lemma join_head (sep x : string) (l : list string) :
  exists rest, join sep (x :: l) = x ++ rest.
Proof. destruct l; simpl; eexists; [symmetry; apply sapp_nil_r|reflexivity]. Qed.

Lemma numbered_line_nonempty (i : Z) (c : string) : dec i ++ "  " ++ c <> "".
Proof. destruct (dec i); discriminate. Qed.

(** X4: the output of the local [history] command is ["No history"]
    when the history holds no non-empty command; otherwise it is one line
    per non-empty command, oldest first, the [k]-th (from 0) reading
    [k+1], two spaces, then the command, lines joined by newlines. *)
Theorem history_output_shape (h : list entry) :
  (commands h = [] -> history_output h = "No history") /\
  (commands h <> [] ->
   history_output h = join newline (numbered_lines 0 (commands h)) /\
   length (numbered_lines 0 (commands h)) = length (commands h) /\
   forall k, (k < length (commands h))%nat ->
     nth k (numbered_lines 0 (commands h)) "" = dec (Z.of_nat k + 1) ++ "  " ++ nth k (commands h) "").
Proof.
  split.
  - intros H. unfold history_output. rewrite H. reflexivity.
  - intros H. split; [|split].
    + unfold history_output. destruct (commands h) as [|c cs] eqn:E; [congruence|].
      cbn [numbered_lines]. destruct (join_head newline (dec (0 + 1) ++ "  " ++ c) (numbered_lines (0 + 1) cs)) as [rest Hr].
      rewrite Hr. destruct (String.eqb_spec ((dec (0 + 1) ++ "  " ++ c) ++ rest) "") as [E2|]; [|reflexivity].
      exfalso. destruct (dec (0 + 1)); discriminate E2.
    + apply numbered_lines_length.
    + intros k Hk. rewrite numbered_lines_nth by exact Hk. reflexivity.
Qed.

(** X5: appending an entry with an empty command (the help entry of a
    blank submission) changes neither the commands seen by the arrow keys
    nor the [history] listing; appending one with a non-empty command [c]
    adds exactly the line [n+1], two spaces, [c] at the end of the
    listing, [n] being the number of commands before it. *)
Theorem history_output_append (h : list entry) (c o : string) (t : Z) :
  (c = "" -> commands (h ++ [mk_entry c o t]) = commands h /\
             history_output (h ++ [mk_entry c o t]) = history_output h) /\
  (c <> "" -> commands h = [] ->
             history_output (h ++ [mk_entry c o t]) = "1  " ++ c) /\
  (c <> "" -> commands h <> [] ->
             history_output (h ++ [mk_entry c o t])
             = history_output h ++ newline ++ dec (Z.of_nat (length (commands h)) + 1) ++ "  " ++ c).
Proof.
  assert (Hc : c <> "" -> commands (h ++ [mk_entry c o t]) = (commands h ++ [c])%list).
  { intros Hne. rewrite commands_app. unfold commands at 2. simpl.
    destruct (String.eqb_spec c "") as [|_]; [congruence|reflexivity]. }
  split; [|split].
  - intros ->. assert (E : commands (h ++ [mk_entry "" o t]) = commands h).
    { rewrite commands_app. unfold commands at 2. simpl. apply app_nil_r. }
    split; [exact E|]. unfold history_output. rewrite E. reflexivity.
  - intros Hne Hh. unfold history_output. rewrite (Hc Hne), Hh. reflexivity.
  - intros Hne Hh. destruct (history_output_shape h) as [_ H2].
    destruct (H2 Hh) as [Ho _]. rewrite Ho.
    assert (Hne' : commands (h ++ [mk_entry c o t]) <> []).
    { rewrite (Hc Hne). intros E. apply app_eq_nil in E. destruct E as [_ E]. discriminate E. }
    destruct (proj2 (history_output_shape (h ++ [mk_entry c o t])) Hne') as [Ho' _].
    rewrite Ho', (Hc Hne), numbered_lines_snoc, join_snoc.
    + reflexivity.
    + intros E. apply (f_equal (@length string)) in E.
      rewrite numbered_lines_length in E. destruct (commands h); [congruence|discriminate].
Qed.
Lemma arrow_up_fields (s : state) :
  history (arrow_up s) = history s /\ display_start_index (arrow_up s) = display_start_index s.
Proof.
  unfold arrow_up. cbv zeta.
  repeat match goal with |- context [if ?b then _ else _] => destruct b end; split; reflexivity.
Qed.

Lemma arrow_down_fields (s : state) :
  history (arrow_down s) = history s /\ display_start_index (arrow_down s) = display_start_index s.
Proof.
  unfold arrow_down. cbv zeta.
  repeat match goal with |- context [if ?b then _ else _] => destruct b end; split; reflexivity.
Qed.

(** The effect of one event on the history and on the display offset:
    the history grows by at most one entry, with the offset unchanged or
    moved to the old length (Ctrl+L), or it is emptied with the offset
    reset (the [clear] command). *)
Lemma step_shape (s : state) (e : event) :
  (exists new, history (step s e) = (history s ++ new)%list /\ (length new <= 1)%nat /\
     (display_start_index (step s e) = display_start_index s \/
      (e = KeyCtrlL /\ new = [] /\
       display_start_index (step s e) = Z.of_nat (length (history s))))) \/
  (history (step s e) = [] /\ display_start_index (step s e) = 0%Z).
Proof.
  unfold step. destruct (page_reloaded s).
  { left. exists []. rewrite app_nil_r. auto. }
  destruct e as [v|now d| | | | |v|call r now].
  - left. exists []. rewrite app_nil_r. auto.
  - unfold run_execute.
    destruct (execute_command (history s) (callback_version s) d (current_input s)).
    + left. eexists. split; [reflexivity|]. simpl. auto.
    + right. split; reflexivity.
    + left. exists []. rewrite app_nil_r. auto.
    + left. exists []. rewrite app_nil_r. auto.
  - left. exists []. rewrite app_nil_r. destruct (arrow_up_fields s) as [-> ->]. auto.
  - left. exists []. rewrite app_nil_r. destruct (arrow_down_fields s) as [-> ->]. auto.
  - left. exists []. rewrite app_nil_r. split; [reflexivity|]. split; [simpl; lia|].
    right. auto.
  - left. exists []. rewrite app_nil_r. auto.
  - left. exists []. rewrite app_nil_r. destruct (String.eqb v ""); auto.
  - destruct (take_pending call (pending s)) as [[c rest]|].
    + left. eexists. split; [reflexivity|]. simpl. auto.
    + left. exists []. rewrite app_nil_r. auto.
Qed.


Definition display_ok (s : state) : Prop :=
  (0 <= display_start_index s <= Z.of_nat (length (history s)))%Z.

Lemma step_display_ok (s : state) (e : event) : display_ok s -> display_ok (step s e).
Proof.
  unfold display_ok. intros Hok.
  destruct (step_shape s e) as [(new & H1 & _ & [H3|(_ & _ & H3)])|(H1 & H3)];
    rewrite H1, H3; try rewrite length_app; simpl; lia.
Qed.

(** X6: in every state the component reaches from mounting, the
    display offset [displayStartIndex] lies between 0 and the length of
    the history. *)
Theorem display_offset_in_range (loaded : list entry) (es : list event) :
  let s := run (initial_state loaded) es in
  (0 <= display_start_index s <= Z.of_nat (length (history s)))%Z.
Proof.
  cbv zeta. change (display_ok (run (initial_state loaded) es)).
  assert (H0 : display_ok (initial_state loaded)) by (unfold display_ok; simpl; lia).
  revert H0. generalize (initial_state loaded) as s.
  induction es as [|e es IH]; intros s Hs; [exact Hs|].
  simpl. apply IH, step_display_ok, Hs.
Qed.


Lemma arrow_down_reloaded (s : state) : page_reloaded (arrow_down s) = page_reloaded s.
Proof.
  unfold arrow_down. cbv zeta.
  repeat match goal with |- context [if ?b then _ else _] => destruct b end; reflexivity.
Qed.

Lemma arrow_up_reloaded (s : state) : page_reloaded (arrow_up s) = page_reloaded s.
Proof.
  unfold arrow_up. cbv zeta.
  repeat match goal with |- context [if ?b then _ else _] => destruct b end; reflexivity.
Qed.

(** X9: when the cursor is not navigating the history
    ([historyIndex = -1]), any number of ArrowDown presses leaves the
    input empty, the cursor at -1 and the history unchanged. *)
Theorem arrow_down_when_idle (s : state) (k : nat) :
  page_reloaded s = false -> history_index s = (-1)%Z ->
  let s' := run s (repeat KeyArrowDown (S k)) in
  current_input s' = "" /\ history_index s' = (-1)%Z /\ history s' = history s /\
  page_reloaded s' = false.
Proof.
  intros Hlive Hidx. induction k as [|k IH]; intros s'; subst s'.
  - simpl. rewrite step_live by exact Hlive. unfold arrow_down. cbv zeta.
    rewrite Hidx, Z.eqb_refl, orb_true_r. auto.
  - destruct IH as (Hc & Hi & Hh & Hl). rewrite run_repeat_snoc.
    set (t := run s (repeat KeyArrowDown (S k))) in *.
    rewrite step_live by exact Hl. unfold arrow_down. cbv zeta.
    rewrite Hi, Z.eqb_refl, orb_true_r. auto.
Qed.

(** X10: from a cursor at position [i] among the non-empty commands,
    each ArrowDown press moves one step newer and loads that command; the
    press after the newest command clears the input and leaves history
    navigation (cursor -1). *)
Theorem arrow_down_walks_to_newest (s : state) :
  page_reloaded s = false ->
  let cs := commands (history s) in
  (0 <= history_index s < Z.of_nat (length cs))%Z ->
  let i := Z.to_nat (history_index s) in
  (forall k, (i + k < length cs)%nat ->
     let s' := run s (repeat KeyArrowDown k) in
     history_index s' = Z.of_nat (i + k) /\ history s' = history s /\ page_reloaded s' = false /\
     ((0 < k)%nat -> current_input s' = nth (i + k) cs "")) /\
  (let s' := run s (repeat KeyArrowDown (length cs - i)) in
   history_index s' = (-1)%Z /\ current_input s' = "" /\ history s' = history s).
Proof.
  intros Hlive cs Hrange i.
  assert (Hwalk : forall k, (i + k < length cs)%nat ->
     let s' := run s (repeat KeyArrowDown k) in
     history_index s' = Z.of_nat (i + k) /\ history s' = history s /\ page_reloaded s' = false /\
     ((0 < k)%nat -> current_input s' = nth (i + k) cs "")).
  { induction k as [|k IH]; intros Hk s'; subst s'.
    - simpl. subst i. rewrite Nat.add_0_r, Z2Nat.id by lia. repeat split; auto. lia.
    - destruct (IH ltac:(lia)) as (Hi & Hh & Hl & _).
      rewrite run_repeat_snoc. set (t := run s (repeat KeyArrowDown k)) in *.
      rewrite step_live by exact Hl. unfold arrow_down. rewrite Hh. fold cs. cbv zeta.
      destruct (Z.eqb_spec (Z.of_nat (length cs)) 0); [lia|].
      destruct (Z.eqb_spec (history_index t) (-1)); [lia|]. simpl orb. cbv iota.
      destruct (Z.ltb_spec (history_index t) (Z.of_nat (length cs) - 1)); [|lia].
      simpl. rewrite Hh. fold cs. repeat split; [lia|exact Hl|]. intros _.
      f_equal. lia. }
  split; [exact Hwalk|].
  assert (Hn : (length cs - i = S (length cs - i - 1))%nat) by lia.
  rewrite Hn, run_repeat_snoc.
  destruct (Hwalk (length cs - i - 1)%nat ltac:(lia)) as (Hi & Hh & Hl & _).
  set (t := run s (repeat KeyArrowDown (length cs - i - 1))) in *.
  rewrite step_live by exact Hl. unfold arrow_down. rewrite Hh. fold cs. cbv zeta.
  destruct (Z.eqb_spec (Z.of_nat (length cs)) 0); [lia|].
  destruct (Z.eqb_spec (history_index t) (-1)); [lia|]. simpl orb. cbv iota.
  destruct (Z.ltb_spec (history_index t) (Z.of_nat (length cs) - 1)); [lia|].
  simpl. auto.
Qed.

(** X11: ArrowUp followed by ArrowDown undoes the move: the cursor
    returns to where it was, with the input empty when it was not
    navigating and holding the command at the cursor otherwise (when the
    cursor was above the oldest command). *)
Theorem arrow_up_then_down (s : state) :
  page_reloaded s = false ->
  let cs := commands (history s) in
  cs <> [] ->
  (history_index s = (-1)%Z \/ (0 < history_index s < Z.of_nat (length cs))%Z) ->
  let s'' := step (step s KeyArrowUp) KeyArrowDown in
  history_index s'' = history_index s /\ history s'' = history s /\
  current_input s'' =
    (if (history_index s =? -1)%Z then "" else nth (Z.to_nat (history_index s)) cs "").
Proof.
  intros Hlive cs Hne Hidx s''. subst s''.
  assert (Hn : (0 < length cs)%nat) by (destruct cs; [congruence|simpl; lia]).
  rewrite (step_live s KeyArrowUp Hlive).
  rewrite step_live by (rewrite arrow_up_reloaded; exact Hlive).
  unfold arrow_up. fold cs. cbv zeta.
  destruct (Z.eqb_spec (Z.of_nat (length cs)) 0); [lia|].
  destruct (Z.eqb_spec (history_index s) (-1)) as [Hm|Hm].
  - unfold arrow_down. simpl. fold cs. rewrite Hm.
    destruct (Z.eqb_spec (Z.of_nat (length cs)) 0); [lia|].
    destruct (Z.eqb_spec (Z.of_nat (length cs) - 1) (-1)); [lia|]. simpl.
    destruct (Z.ltb_spec (Z.of_nat (length cs) - 1) (Z.of_nat (length cs) - 1)); [lia|].
    auto.
  - destruct (Z.gtb_spec (history_index s) 0); [|lia].
    unfold arrow_down. simpl. fold cs.
    destruct (Z.eqb_spec (Z.of_nat (length cs)) 0); [lia|].
    destruct (Z.eqb_spec (history_index s - 1) (-1)); [lia|]. simpl.
    destruct (Z.ltb_spec (history_index s - 1) (Z.of_nat (length cs) - 1)); [|lia].
    simpl. split; [lia|split; [reflexivity|]]. f_equal. lia.
Qed.
(** X12: the memoised [executeCommand] depends on [history] only, so it
    keeps the [backendVersion] of the render where [history] last changed:
    after the version is fetched, [neofetch] still shows no version line
    until the history has changed once more, and the next [neofetch]
    shows ["Version: "] followed by the version. *)
Theorem neofetch_version_needs_history_change (loaded : list entry) (v d1 d2 : string) (t1 t2 : Z) :
  v <> "" ->
  let s1 := run (initial_state loaded) [VersionFetched v; Change "neofetch"; KeyEnter t1 d1] in
  let s2 := run s1 [Change "neofetch"; KeyEnter t2 d2] in
  backend_version s1 = Some v /\
  history s1 = (loaded ++ [mk_entry "neofetch" NEOFETCH_OUTPUT t1])%list /\
  history s2 = (history s1 ++ [mk_entry "neofetch" (NEOFETCH_OUTPUT ++ newline ++ "Version: " ++ v) t2])%list.
Proof.
  intros Hv s1 s2. subst s1 s2. unfold run. cbn [fold_left].
  assert (E1 : step (initial_state loaded) (VersionFetched v) = set_version (initial_state loaded) (Some v)).
  { unfold step. simpl page_reloaded. cbv iota.
    destruct (String.eqb_spec v "") as [|_]; [congruence|reflexivity]. }
  rewrite E1. split; [reflexivity|]. split; reflexivity.
Qed.

(** X13: when [localStorage] works, [getSessionId] returns a non-empty
    id that is stored under ["terminal_session_id"], and a later call
    returns that same id and leaves the storage as it is. *)
Theorem session_id_reused (st : local_storage) (n1 n2 n3 n4 : Z) (r1 r2 r3 r4 : string) :
  can_read st = true -> can_write st = true ->
  let '(id1, st1) := get_session_id true st n1 r1 n2 r2 in
  id1 <> "" /\ lookup_item "terminal_session_id" (items st1) = Some id1 /\
  get_session_id true st1 n3 r3 n4 r4 = (id1, st1).
Proof.
  intros Hr Hw. unfold get_session_id at 1, get_item. rewrite Hr. simpl negb. cbv iota zeta.
  assert (Hnew : forall id, id <> "" ->
    let st1 := mk_storage (("terminal_session_id", id) ::
                 filter (fun p => negb (String.eqb (fst p) "terminal_session_id")) (items st))
                 (can_read st) true in
    id <> "" /\ lookup_item "terminal_session_id" (items st1) = Some id /\
    get_session_id true st1 n3 r3 n4 r4 = (id, st1)).
  { intros id Hid st1. split; [exact Hid|]. split; [reflexivity|].
    unfold get_session_id, get_item. subst st1. simpl can_read. rewrite Hr. simpl.
    destruct (String.eqb_spec id "") as [|_]; [congruence|reflexivity]. }
  assert (Hid : new_session_id n1 r1 <> "") by (unfold new_session_id; discriminate).
  destruct (lookup_item "terminal_session_id" (items st)) as [stored|] eqn:Hl.
  - destruct (String.eqb_spec stored "") as [_|Hne].
    + unfold set_item. rewrite Hw. exact (Hnew _ Hid).
    + split; [exact Hne|]. split; [exact Hl|].
      unfold get_session_id, get_item. rewrite Hr. simpl. rewrite Hl.
      destruct (String.eqb_spec stored "") as [|_]; [congruence|reflexivity].
  - unfold set_item. rewrite Hw. exact (Hnew _ Hid).
Qed.

(** X14: when no id is stored and [localStorage.setItem] throws,
    [getSessionId] still returns an id, the one generated in its [catch]
    block (["session_"] followed by the time and random part), and stores
    nothing. *)
Theorem session_id_when_storage_fails (st : local_storage) (n1 n2 : Z) (r1 r2 : string) :
  can_write st = false ->
  (forall v, get_item st "terminal_session_id" = Some (Some v) -> v = "") ->
  get_session_id true st n1 r1 n2 r2 = (new_session_id n2 r2, st) /\
  String.prefix "session_" (new_session_id n2 r2) = true.
Proof.
  intros Hw Hnone. split; [|unfold new_session_id; simpl; destruct (dec n2 ++ String "_" r2); reflexivity].
  unfold get_session_id, set_item. rewrite Hw. simpl negb. cbv iota zeta.
  destruct (get_item st "terminal_session_id") as [[stored|]|] eqn:Hg; try reflexivity.
  rewrite (Hnone stored eq_refl). reflexivity.
Qed.

Lemma history_output_shape_witness :
  history_output [mk_entry "ls" "o" 0; mk_entry "" HELP_TEXT 1; mk_entry "pwd" "p" 2]
  = join newline (numbered_lines 0 (commands
      [mk_entry "ls" "o" 0; mk_entry "" HELP_TEXT 1; mk_entry "pwd" "p" 2])).
Proof.
  exact (proj1 (proj2 (history_output_shape
    [mk_entry "ls" "o" 0; mk_entry "" HELP_TEXT 1; mk_entry "pwd" "p" 2])
    ltac:(vm_compute; discriminate))).
Defined.

Lemma history_output_append_witness :
  history_output ([mk_entry "ls" "o" 0; mk_entry "pwd" "p" 2] ++ [mk_entry "date" "x" 3])
  = history_output [mk_entry "ls" "o" 0; mk_entry "pwd" "p" 2] ++ newline
    ++ dec (Z.of_nat (length (commands [mk_entry "ls" "o" 0; mk_entry "pwd" "p" 2])) + 1)
    ++ "  " ++ "date".
Proof.
  exact (proj2 (proj2 (history_output_append [mk_entry "ls" "o" 0; mk_entry "pwd" "p" 2]
    "date" "x" 3)) ltac:(discriminate) ltac:(vm_compute; discriminate)).
Defined.


Lemma arrow_down_when_idle_witness :
  current_input (run (initial_state [mk_entry "ls" "o" 0]) (repeat KeyArrowDown 3)) = "".
Proof.
  exact (proj1 (arrow_down_when_idle (initial_state [mk_entry "ls" "o" 0]) 2 eq_refl eq_refl)).
Defined.

Lemma arrow_down_walks_to_newest_witness :
  history_index (run (set_index (initial_state [mk_entry "ls" "o" 0; mk_entry "pwd" "p" 1]) 0)
                     (repeat KeyArrowDown 2)) = (-1)%Z.
Proof.
  exact (proj1 (proj2 (arrow_down_walks_to_newest
    (set_index (initial_state [mk_entry "ls" "o" 0; mk_entry "pwd" "p" 1]) 0)
    eq_refl ltac:(simpl; lia)))).
Defined.

Lemma arrow_up_then_down_witness :
  current_input (step (step (initial_state [mk_entry "ls" "o" 0; mk_entry "pwd" "p" 1]) KeyArrowUp)
                      KeyArrowDown) = "".
Proof.
  exact (proj2 (proj2 (arrow_up_then_down (initial_state [mk_entry "ls" "o" 0; mk_entry "pwd" "p" 1])
    eq_refl ltac:(vm_compute; discriminate) (or_introl eq_refl)))).
Defined.

Lemma neofetch_version_needs_history_change_witness :
  history (run (initial_state []) [VersionFetched "1.2"; Change "neofetch"; KeyEnter 1 "d"])
  = [mk_entry "neofetch" NEOFETCH_OUTPUT 1].
Proof.
  exact (proj1 (proj2 (neofetch_version_needs_history_change [] "1.2" "d" "d" 1 2
    ltac:(discriminate)))).
Defined.

Lemma session_id_reused_witness :
  let '(id1, st1) := get_session_id true (mk_storage [] true true) 1 "abc" 2 "def" in
  id1 <> "" /\ lookup_item "terminal_session_id" (items st1) = Some id1 /\
  get_session_id true st1 3 "ghi" 4 "jkl" = (id1, st1).
Proof.
  exact (session_id_reused (mk_storage [] true true) 1 2 3 4 "abc" "def" "ghi" "jkl" eq_refl eq_refl).
Defined.

Lemma session_id_when_storage_fails_witness :
  get_session_id true (mk_storage [] true false) 1 "abc" 2 "def"
  = (new_session_id 2 "def", mk_storage [] true false).
Proof.
  exact (proj1 (session_id_when_storage_fails (mk_storage [] true false) 1 2 "abc" "def" eq_refl
    (fun v H => ltac:(discriminate H)))).
Defined.
